(** * TelescopeCalc: the telescope calculator class of telescopeCalculator.js

    The class [TelescopeCalc] keeps five numbers (aperture diameter, focal
    length, eyepiece focal length, Barlow factor, focal reducer factor),
    validates them in its constructor and in its five setters, and offers
    six computations over them.

    A JavaScript Number is an IEEE 754 binary64 value, and [*], [/] and
    [<=] on Numbers are the IEEE operations with round-to-nearest-even.
    Rocq's primitive [float] is exactly that type with exactly those
    operations, so the methods are embedded over [float], through a small
    interface that names the arithmetic they use.  Where a property speaks
    of real numbers, a finite Number is read as the rational number it
    stands for, and the operations of the program keep their rounding,
    overflow and underflow.

    Methods are embedded in a state-and-exception monad over the object:
    a method call receives the object, returns either a value or a thrown
    error, and hands back the object as the call left it.

    The values that reach the class are Numbers, or [undefined] for a
    constructor argument that is left out; other JavaScript values
    (strings, [null], objects) and their coercions are outside the model. *)

From Stdlib Require Import ZArith QArith Qpower Qfield Lqa Floats Uint63 Ascii String DecimalString List Bool Lia.
Import ListNotations.

Set Implicit Arguments.

(** ** The arithmetic the class uses *)

Declare Scope js_scope.
Delimit Scope js_scope with js.

Class Number (num : Type) : Type := {
  (** an integer-valued numeric literal of the source: [0], [1], [2.0], [6.0], [116.] *)
  lit : Z -> num;
  num_mul : num -> num -> num;
  num_div : num -> num -> num;
  (** the relational operator [<=] *)
  num_le : num -> num -> bool
}.

Notation "a * b" := (num_mul a b) : js_scope.
Notation "a / b" := (num_div a b) : js_scope.
Notation "a <= b" := (num_le a b) : js_scope.

(** JavaScript's Number: binary64.  The literals of the class are the small
    non-negative integers [0], [1], [2], [6] and [116], which [of_uint63]
    converts exactly. *)
#[export] Instance binary64 : Number float := {
  lit z := PrimFloat.of_uint63 (Uint63.of_Z z);
  num_mul := PrimFloat.mul;
  num_div := PrimFloat.div;
  num_le := PrimFloat.leb
}.

(** ** Errors and completions *)

Inductive JSError : Type :=
| TypeError (message : string)
| RangeError (message : string).

(** How a call ends: normally with a value, or abruptly with a thrown error. *)
Inductive completion (A : Type) : Type :=
| Normal (a : A)
| Throw (e : JSError).
Arguments Normal {A} a.
Arguments Throw {A} e.

Section Class.

Context {num : Type} `{Number num}.

(** ** The object *)

Record TelescopeCalc : Type := mkTelescopeCalc {
  _telDiameter : num;
  _telFocalLength : num;
  _epFocalLength : num;
  _barlowFactor : num;
  _focalReducerFactor : num
}.

(** ** Method monad: the object is threaded, an error aborts the body *)

Definition method (A : Type) : Type := TelescopeCalc -> completion A * TelescopeCalc.

Definition ret {A : Type} (a : A) : method A := fun this => (Normal a, this).

Definition throw {A : Type} (e : JSError) : method A := fun this => (Throw e, this).

Definition bind {A B : Type} (m : method A) (k : A -> method B) : method B :=
  fun this =>
    match m this with
    | (Normal a, this') => k a this'
    | (Throw e, this') => (Throw e, this')
    end.

(** [this._field] *)
Definition read (field : TelescopeCalc -> num) : method num :=
  fun this => (Normal (field this), this).

(** [this._field = v] *)
Definition assign (update : TelescopeCalc -> TelescopeCalc) : method unit :=
  fun this => (Normal tt, update this).

Notation "x <- m ;; k" := (bind m (fun x => k))
  (at level 61, m at next level, right associativity).
Notation "m ;; k" := (bind m (fun _ => k))
  (at level 61, right associativity).

(** ** constructor

    An argument is [None] when it is absent or [undefined].  The two
    default parameters take the value [1] in that case.  A constructor that
    throws yields no object. *)

Definition default (d : num) (arg : option num) : num :=
  match arg with Some v => v | None => d end.

Definition constructor
    (telDiameter telFocalLength epFocalLength barlowFactor focalReducerFactor : option num)
    : completion TelescopeCalc :=
  let barlowFactor := default (lit 1) barlowFactor in
  let focalReducerFactor := default (lit 1) focalReducerFactor in
  match telDiameter, telFocalLength, epFocalLength with
  | Some telDiameter, Some telFocalLength, Some epFocalLength =>
      if (telDiameter <= lit 0)%js then
        Throw (RangeError "argument telDiameter has to be greater than 0.")
      else if (telFocalLength <= lit 0)%js then
        Throw (RangeError "argument telFocalLength has to be greater than 0.")
      else if (epFocalLength <= lit 0)%js then
        Throw (RangeError "argument epFocalLength has to be greater than 0.")
      else if (barlowFactor <= lit 0)%js then
        Throw (RangeError "argument barlowFactor has to be greater than 0.")
      else if (focalReducerFactor <= lit 0)%js then
        Throw (RangeError "argument focalReducerFactor has to be greater than 0.")
      else
        Normal {| _telDiameter := telDiameter;
                  _telFocalLength := telFocalLength;
                  _epFocalLength := epFocalLength;
                  _barlowFactor := barlowFactor;
                  _focalReducerFactor := focalReducerFactor |}
  | _, _, _ =>
      Throw (TypeError "arguments telDiameter, telFocalLength, epFocalLength are required.")
  end.

(** ** Getters *)

Definition get_telDiameter : method num := read _telDiameter.
Definition get_telFocalLength : method num := read _telFocalLength.
Definition get_epFocalLength : method num := read _epFocalLength.
Definition get_barlowFactor : method num := read _barlowFactor.
Definition get_focalReducerFactor : method num := read _focalReducerFactor.

(** ** Setters *)

Definition with_telDiameter (v : num) (this : TelescopeCalc) : TelescopeCalc :=
  {| _telDiameter := v;
     _telFocalLength := _telFocalLength this;
     _epFocalLength := _epFocalLength this;
     _barlowFactor := _barlowFactor this;
     _focalReducerFactor := _focalReducerFactor this |}.

Definition with_telFocalLength (v : num) (this : TelescopeCalc) : TelescopeCalc :=
  {| _telDiameter := _telDiameter this;
     _telFocalLength := v;
     _epFocalLength := _epFocalLength this;
     _barlowFactor := _barlowFactor this;
     _focalReducerFactor := _focalReducerFactor this |}.

Definition with_epFocalLength (v : num) (this : TelescopeCalc) : TelescopeCalc :=
  {| _telDiameter := _telDiameter this;
     _telFocalLength := _telFocalLength this;
     _epFocalLength := v;
     _barlowFactor := _barlowFactor this;
     _focalReducerFactor := _focalReducerFactor this |}.

Definition with_barlowFactor (v : num) (this : TelescopeCalc) : TelescopeCalc :=
  {| _telDiameter := _telDiameter this;
     _telFocalLength := _telFocalLength this;
     _epFocalLength := _epFocalLength this;
     _barlowFactor := v;
     _focalReducerFactor := _focalReducerFactor this |}.

Definition with_focalReducerFactor (v : num) (this : TelescopeCalc) : TelescopeCalc :=
  {| _telDiameter := _telDiameter this;
     _telFocalLength := _telFocalLength this;
     _epFocalLength := _epFocalLength this;
     _barlowFactor := _barlowFactor this;
     _focalReducerFactor := v |}.

Definition set_telDiameter (newTelDiameter : num) : method unit :=
  if (newTelDiameter <= lit 0)%js then
    throw (RangeError "telDiameter has to be greater than 0.")
  else assign (with_telDiameter newTelDiameter).

Definition set_telFocalLength (newFocalLength : num) : method unit :=
  if (newFocalLength <= lit 0)%js then
    throw (RangeError "focalLength has to be greater than 0.")
  else assign (with_telFocalLength newFocalLength).

Definition set_epFocalLength (newEpFocalLength : num) : method unit :=
  if (newEpFocalLength <= lit 0)%js then
    throw (RangeError "epFocalLength has to be greater than 0.")
  else assign (with_epFocalLength newEpFocalLength).

Definition set_barlowFactor (newBarlowFactor : num) : method unit :=
  if (newBarlowFactor <= lit 0)%js then
    throw (RangeError "barlowFactor has to be greater than 0.")
  else assign (with_barlowFactor newBarlowFactor).

Definition set_focalReducerFactor (newFRedFactor : num) : method unit :=
  if (newFRedFactor <= lit 0)%js then
    throw (RangeError "focalReducerFactor has to be greater than 0.")
  else assign (with_focalReducerFactor newFRedFactor).

(** ** Computations *)

Definition calcMagnification : method num :=
  b <- read _barlowFactor ;;
  f <- read _telFocalLength ;;
  r <- read _focalReducerFactor ;;
  e <- read _epFocalLength ;;
  ret (b * f * r / e)%js.

Definition calcLowerMagnificationLimit : method num :=
  d <- read _telDiameter ;;
  ret (d / lit 6)%js.

Definition calcUpperMagnificationLimit : method num :=
  d <- read _telDiameter ;;
  ret (lit 2 * d)%js.

Definition calcFocalRatio : method num :=
  b <- read _barlowFactor ;;
  f <- read _telFocalLength ;;
  d <- read _telDiameter ;;
  r <- read _focalReducerFactor ;;
  ret ((b * f / d) * r)%js.

Definition calcExitPupil : method num :=
  d <- read _telDiameter ;;
  m <- calcMagnification ;;
  ret (d / m)%js.

Definition calcDawesLimit : method num :=
  d <- read _telDiameter ;;
  ret (lit 116 / d)%js.

(** ** Property access by name

    A caller reaches the accessors through the property names
    [telDiameter], [telFocalLength], [epFocalLength], [barlowFactor] and
    [focalReducerFactor]: reading [obj.p] runs the getter of [p], the
    assignment [obj.p = v] runs its setter. *)

Inductive property : Type :=
| telDiameter | telFocalLength | epFocalLength | barlowFactor | focalReducerFactor.

Definition getter (p : property) : method num :=
  match p with
  | telDiameter => get_telDiameter
  | telFocalLength => get_telFocalLength
  | epFocalLength => get_epFocalLength
  | barlowFactor => get_barlowFactor
  | focalReducerFactor => get_focalReducerFactor
  end.

Definition setter (p : property) : num -> method unit :=
  match p with
  | telDiameter => set_telDiameter
  | telFocalLength => set_telFocalLength
  | epFocalLength => set_epFocalLength
  | barlowFactor => set_barlowFactor
  | focalReducerFactor => set_focalReducerFactor
  end.

(** The backing field of a property, and the object with that one field replaced. *)
Definition backing (p : property) : TelescopeCalc -> num :=
  match p with
  | telDiameter => _telDiameter
  | telFocalLength => _telFocalLength
  | epFocalLength => _epFocalLength
  | barlowFactor => _barlowFactor
  | focalReducerFactor => _focalReducerFactor
  end.

Definition replaced (p : property) : num -> TelescopeCalc -> TelescopeCalc :=
  match p with
  | telDiameter => with_telDiameter
  | telFocalLength => with_telFocalLength
  | epFocalLength => with_epFocalLength
  | barlowFactor => with_barlowFactor
  | focalReducerFactor => with_focalReducerFactor
  end.

Definition property_eqb (p q : property) : bool :=
  match p, q with
  | telDiameter, telDiameter
  | telFocalLength, telFocalLength
  | epFocalLength, epFocalLength
  | barlowFactor, barlowFactor
  | focalReducerFactor, focalReducerFactor => true
  | _, _ => false
  end.

(** A client that performs the assignments [obj.p = v] of a list one after
    the other, catching whatever a setter throws and carrying on with the
    same object. *)
Fixpoint assignments (calls : list (property * num)) (this : TelescopeCalc) : TelescopeCalc :=
  match calls with
  | [] => this
  | (p, v) :: rest => assignments rest (snd (setter p v this))
  end.

(** The six computations, by name. *)
Inductive computation : Type :=
| Magnification | LowerMagnificationLimit | UpperMagnificationLimit
| FocalRatio | ExitPupil | DawesLimit.

Definition calc (c : computation) : method num :=
  match c with
  | Magnification => calcMagnification
  | LowerMagnificationLimit => calcLowerMagnificationLimit
  | UpperMagnificationLimit => calcUpperMagnificationLimit
  | FocalRatio => calcFocalRatio
  | ExitPupil => calcExitPupil
  | DawesLimit => calcDawesLimit
  end.

End Class.

Arguments TelescopeCalc num : clear implicits.
Arguments method num A : clear implicits.

Notation "x <- m ;; k" := (bind m (fun x => k))
  (at level 61, m at next level, right associativity).
Notation "m ;; k" := (bind m (fun _ => k))
  (at level 61, right associativity).

(** ** Number.prototype.toFixed

    The page shows each result through [toFixed(2)].  ECMA-262 defines
    [x.toFixed(f)] on the exact value of [x]: for a finite [|x| < 10^21],
    take the integer [n] for which [n / 10^f - |x|] is closest to zero (the
    larger [n] on a tie), write its decimal digits, pad with zeros to at
    least [f + 1] digits, put the point before the last [f] digits, and
    prefix [-] when [x < 0].  A value that is not finite prints by name.
    For [|x| >= 10^21] the standard defers to [Number::toString], which is
    not modelled: the result is [None] there. *)

Definition nearest_scaled (m : positive) (e : Z) (f : nat) : Z :=
  let scaled := (Zpos m * 10 ^ Z.of_nat f)%Z in
  match e with
  | Zneg p => ((2 * scaled + 2 ^ Zpos p) / 2 ^ (Zpos p + 1))%Z
  | _ => (scaled * 2 ^ e)%Z
  end.

Definition at_least_1e21 (m : positive) (e : Z) : bool :=
  match e with
  | Zneg p => (10 ^ 21 * 2 ^ Zpos p <=? Zpos m)%Z
  | _ => (10 ^ 21 <=? Zpos m * 2 ^ e)%Z
  end.

Fixpoint zeros (k : nat) : string :=
  match k with
  | O => EmptyString
  | S k' => String "0"%char (zeros k')
  end.

Definition fixed_digits (n : Z) (f : nat) : string :=
  let m := NilZero.string_of_uint (N.to_uint (Z.to_N n)) in
  match f with
  | O => m
  | S _ =>
      let m := if (String.length m <=? f)%nat
               then (zeros (f + 1 - String.length m) ++ m)%string else m in
      let k := String.length m in
      (substring 0 (k - f) m ++ "." ++ substring (k - f) f m)%string
  end.

Definition toFixed (x : float) (fractionDigits : nat) : option string :=
  match Prim2SF x with
  | S754_nan => Some "NaN"%string
  | S754_infinity s => Some (if s then "-Infinity" else "Infinity")%string
  | S754_zero _ => Some (fixed_digits 0 fractionDigits)
  | S754_finite s m e =>
      if at_least_1e21 m e then None
      else Some ((if s then "-" else "") ++
                 fixed_digits (nearest_scaled m e fractionDigits) fractionDigits)%string
  end.

(** ** Predicates on Numbers and on objects

    [x > 0] is JavaScript's comparison: false for NaN, true for [Infinity]. *)

Definition positive_number (x : float) : Prop := (0 <? x)%float = true.

Definition finite_number (x : float) : Prop := PrimFloat.is_finite x = true.

(** Every field is [> 0]. *)
Definition valid (t : TelescopeCalc float) : Prop :=
  forall p : property, positive_number (backing p t).

(** What the range checks establish literally: no field is [<= 0]. *)
Definition none_out_of_range (t : TelescopeCalc float) : Prop :=
  forall p : property, (backing p t <=? 0)%float = false.

Definition not_nan (x : float) : Prop := PrimFloat.is_nan x = false.

Definition supplied_not_nan (arg : option float) : Prop :=
  match arg with Some v => not_nan v | None => True end.

(** ** Signs of binary64 values, on their IEEE 754 decomposition

    [Prim2SF] decomposes a Number into sign, mantissa and exponent, or
    into one of the special values. *)

(** [+0], a positive finite value or [+Infinity]: exactly the Numbers [x]
    with [0 <= x] other than [-0]. *)
Definition sf_nonneg (x : spec_float) : Prop :=
  match x with
  | S754_zero false | S754_infinity false | S754_finite false _ _ => True
  | _ => False
  end.

(** A positive finite value. *)
Definition sf_finite_positive (x : spec_float) : Prop :=
  match x with
  | S754_finite false _ _ => True
  | _ => False
  end.

(** Every field is finite. *)
Definition all_finite (t : TelescopeCalc float) : Prop :=
  forall p : property, finite_number (backing p t).

(** ** The real number a Number stands for

    A finite Number is [m * 2 ^ e] or [- m * 2 ^ e] for the mantissa [m]
    and the exponent [e] of its decomposition, and the zeros are [0];
    [Infinity], [-Infinity] and NaN stand for no real number. *)
Definition SF2Q (x : spec_float) : option Q :=
  match x with
  | S754_zero _ => Some 0%Q
  | S754_finite s m e =>
      Some ((if s then - inject_Z (Zpos m) else inject_Z (Zpos m)) * 2 ^ e)%Q
  | S754_infinity _ | S754_nan => None
  end.

Definition real_value (x : float) : option Q := SF2Q (Prim2SF x).

(** Positive, [Infinity] included. *)
Definition sf_positive (x : spec_float) : Prop :=
  match x with
  | S754_finite false _ _ | S754_infinity false => True
  | _ => False
  end.

(** A positive normal value: its mantissa has all 53 bits. *)
Definition sf_normal (x : spec_float) : Prop :=
  match x with
  | S754_finite false m _ => Zpos (digits2_pos m) = prec
  | _ => False
  end.

(** A positive normal Number: finite, and neither zero nor subnormal. *)
Definition normal_number (x : float) : Prop := PrimFloat.classify x = PNormal.

(** The results of the six operations that [calcExitPupil()] (through
    [calcMagnification()]) and [calcFocalRatio()] perform are all positive
    normal Numbers: no operation overflows, and none underflows to zero or
    to a subnormal.  The products [b * f] of the two methods are the same
    operation on the same operands. *)
Definition rounds_normally (t : TelescopeCalc float) : Prop :=
  let d := _telDiameter t in
  let f := _telFocalLength t in
  let e := _epFocalLength t in
  let b := _barlowFactor t in
  let r := _focalReducerFactor t in
  (normal_number (b * f) /\
   normal_number (b * f * r) /\
   normal_number (b * f * r / e) /\
   normal_number (d / (b * f * r / e)) /\
   normal_number (b * f / d) /\
   normal_number (b * f / d * r))%float.

(** Half a unit in the last place of a normal Number, relative to the
    Number: [2 ^ -53]. *)
Definition unit_roundoff : Q := 1 # 9007199254740992.

(** The bound on the relative error of [exitPupil * focalRatio]:
    [6 * 2 ^ -53]. *)
Definition relative_error_bound : Q := 6 # 9007199254740992.

(** Where a real number [z >= 0] lies against the integer [m] of a
    rounding record: the round bit is the half, the sticky bit what is
    left beyond it. *)
Definition located (z : Q) (mrs : shr_record) : Prop :=
  let m := inject_Z (shr_m mrs) in
  match shr_r mrs, shr_s mrs with
  | false, false => (z == m)%Q
  | false, true => (m < z /\ z < m + (1#2))%Q
  | true, false => (z == m + (1#2))%Q
  | true, true => (m + (1#2) < z /\ z < m + 1)%Q
  end.


(** ** Reading sequences of assignments, and what each computation reads *)

(** The last value in [calls] that the setter of [p] accepts, if any: an
    assignment is rejected exactly when its value is [<= 0]. *)
Fixpoint last_accepted (p : property) (calls : list (property * float)) : option float :=
  match calls with
  | [] => None
  | (q, v) :: rest =>
      match last_accepted p rest with
      | Some w => Some w
      | None =>
          if property_eqb q p && negb (v <=? 0)%float then Some v else None
      end
  end.

(** The fields that occur in the formula of each computation. *)
Definition reads (c : computation) (p : property) : bool :=
  match c, p with
  | Magnification, telDiameter => false
  | Magnification, _ => true
  | LowerMagnificationLimit, telDiameter => true
  | LowerMagnificationLimit, _ => false
  | UpperMagnificationLimit, telDiameter => true
  | UpperMagnificationLimit, _ => false
  | FocalRatio, epFocalLength => false
  | FocalRatio, _ => true
  | ExitPupil, _ => true
  | DawesLimit, telDiameter => true
  | DawesLimit, _ => false
  end.

(** * The page script: telescopeCalcInterface.js

    The script reads the form of the calculator page, runs the class and
    writes the results, or an error message, into the page.

    The page is a document of elements reached by their [id].  An element
    is modelled by the properties the script and the form reset touch:
    [value] and [checked] with their defaults, [hidden], [textContent],
    [style.fontStyle], the class list, and the id of the form that owns it.
    The page is assumed to contain the ids the script asks for.  The
    console is the list of what was logged, oldest first. *)

Open Scope string_scope.

(** What the browser supplies to the script. *)
Class Browser : Type := {
  (** [Number(text)], the conversion of the text of an input box *)
  StringToNumber : string -> float;
  (** [Number::toString], which [toFixed] defers to for [|x| >= 10^21] *)
  NumberToString : float -> string
}.

(** What the script can catch: an error of the class, or its own SyntaxError. *)
Inductive Exception : Type :=
| ClassError (e : JSError)
| SyntaxError (message : string).

Record Element : Type := mkElement {
  value : string;
  defaultValue : string;
  checked : bool;
  defaultChecked : bool;
  hidden : bool;
  textContent : string;
  fontStyle : string;
  classList : list string;
  form : option string
}.

Record Document : Type := mkDocument {
  (** the [lang] attribute of the [html] element, [None] when it has none *)
  lang : option string;
  elements : string -> Element;
  console : list Exception
}.

Record Event : Type := mkEvent { target : Element }.

Definition getElementById (document : Document) (id : string) : Element :=
  elements document id.

(** [el.hidden = b], [el.textContent = s], [el.style.fontStyle = s] *)
Definition set_hidden (b : bool) (el : Element) : Element :=
  {| value := value el; defaultValue := defaultValue el;
     checked := checked el; defaultChecked := defaultChecked el;
     hidden := b; textContent := textContent el; fontStyle := fontStyle el;
     classList := classList el; form := form el |}.

Definition set_textContent (s : string) (el : Element) : Element :=
  {| value := value el; defaultValue := defaultValue el;
     checked := checked el; defaultChecked := defaultChecked el;
     hidden := hidden el; textContent := s; fontStyle := fontStyle el;
     classList := classList el; form := form el |}.

Definition set_fontStyle (s : string) (el : Element) : Element :=
  {| value := value el; defaultValue := defaultValue el;
     checked := checked el; defaultChecked := defaultChecked el;
     hidden := hidden el; textContent := textContent el; fontStyle := s;
     classList := classList el; form := form el |}.

(** What the user does to a control: typing sets [value], ticking sets
    [checked]. *)
Definition set_value (s : string) (el : Element) : Element :=
  {| value := s; defaultValue := defaultValue el;
     checked := checked el; defaultChecked := defaultChecked el;
     hidden := hidden el; textContent := textContent el; fontStyle := fontStyle el;
     classList := classList el; form := form el |}.

Definition set_checked (b : bool) (el : Element) : Element :=
  {| value := value el; defaultValue := defaultValue el;
     checked := b; defaultChecked := defaultChecked el;
     hidden := hidden el; textContent := textContent el; fontStyle := fontStyle el;
     classList := classList el; form := form el |}.

(** A form control after [form.reset()]: value and checkedness go back to
    their defaults. *)
Definition reset_control (el : Element) : Element :=
  {| value := defaultValue el; defaultValue := defaultValue el;
     checked := defaultChecked el; defaultChecked := defaultChecked el;
     hidden := hidden el; textContent := textContent el; fontStyle := fontStyle el;
     classList := classList el; form := form el |}.

(** The document with the element of one id changed. *)
Definition update (id : string) (change : Element -> Element) (document : Document)
    : Document :=
  {| lang := lang document;
     elements := fun id' =>
       if String.eqb id' id then change (elements document id')
       else elements document id';
     console := console document |}.

(** The document with every element that satisfies [selected] changed. *)
Definition update_all (selected : Element -> bool) (change : Element -> Element)
    (document : Document) : Document :=
  {| lang := lang document;
     elements := fun id =>
       if selected (elements document id) then change (elements document id)
       else elements document id;
     console := console document |}.

(** [console.log(e)] *)
Definition console_log (e : Exception) (document : Document) : Document :=
  {| lang := lang document;
     elements := elements document;
     console := (console document ++ [e])%list |}.

(** [querySelectorAll('.resultDisplay')] selects by class. *)
Definition is_resultDisplay (el : Element) : bool :=
  existsb (String.eqb "resultDisplay") (classList el).

(** The controls that [document.getElementById('magCalc').reset()] resets. *)
Definition in_magCalc (el : Element) : bool :=
  match form el with
  | Some owner => String.eqb owner "magCalc"
  | None => false
  end.

(** ** showBarlowBox, showFocalReducerBox *)

Definition showBarlowBox (event : Event) (document : Document) : Document :=
  if checked (target event) then
    update "barlowPower" (set_hidden false)
      (update "barlowLabel" (set_hidden false) document)
  else
    update "barlowPower" (set_hidden true)
      (update "barlowLabel" (set_hidden true) document).

Definition showFocalReducerBox (event : Event) (document : Document) : Document :=
  if checked (target event) then
    update "fReducerFactor" (set_hidden false)
      (update "fReducerLabel" (set_hidden false) document)
  else
    update "fReducerFactor" (set_hidden true)
      (update "fReducerLabel" (set_hidden true) document).

(** ** resetForm *)

Definition resetForm (document : Document) : Document :=
  let document := update_all in_magCalc reset_control document in
  let document :=
    update_all is_resultDisplay
      (fun disp => set_fontStyle "" (set_textContent "" disp)) document in
  let document := update "barlowLabel" (set_hidden true) document in
  let document := update "barlowPower" (set_hidden true) document in
  let document := update "fReducerLabel" (set_hidden true) document in
  update "fReducerFactor" (set_hidden true) document.

(** ** calcTelescopeCharacteristics *)

(** An object used as a dictionary: its keys in insertion order. *)
Definition dictionary (A : Type) : Type := list (string * A).

(** [dict[key]]: [None] is [undefined]. *)
Fixpoint lookup {A : Type} (key : string) (dict : dictionary A) : option A :=
  match dict with
  | [] => None
  | (k, v) :: rest => if String.eqb k key then Some v else lookup key rest
  end.

(** [dict[key] = v]: an existing key keeps its place. *)
Fixpoint store {A : Type} (key : string) (v : A) (dict : dictionary A) : dictionary A :=
  match dict with
  | [] => [(key, v)]
  | (k, w) :: rest =>
      if String.eqb k key then (k, v) :: rest else (k, w) :: store key v rest
  end.

(** The display elements, under the keys of [resultContainers]. *)
Definition resultContainers : dictionary string :=
  store "dawesLimitResult" "dawesLimitRes"%string
    (store "fRatioResult" "fRatioResult"%string
       (store "upperMagLimResult" "upperMagLimit"%string
          (store "lowerMagLimResult" "lowerMagLimit"%string
             (store "magResult" "magResult"%string [])))).

Definition incorrectTypeErrorMessage (langTag : option string) : string :=
  match langTag with
  | Some "es"%string =>
      "Error: dato de entrada incorrecto, por favor revise que las entradas sean numeros."
  | _ => "Error: Incorrect input type, please check that your inputs are numbers."
  end.

Definition rangeErrorMessage (langTag : option string) : string :=
  match langTag with
  | Some "es"%string =>
      "Error: Por favor revise que las longitudes focales de telescopio, ocular, el aumento de la lente de Barlow y/o el factor de reduccion focal sean positivos."
  | _ =>
      "Error: Please check that the telescope and eyepiece focal lengths, Barlow lens power and/or Focal reducer factor are positive."
  end.

Section Script.

Context {browser : Browser}.

(** [x.toFixed(digits)] with the fallback of the browser for large values. *)
Definition toFixed_string (x : float) (digits : nat) : string :=
  match toFixed x digits with
  | Some s => s
  | None => NumberToString x
  end.

(** [Number(document.getElementById(id).value)] *)
Definition number_in (document : Document) (id : string) : float :=
  StringToNumber (value (getElementById document id)).

(** Retrieve the data from the form. *)
Definition inputData (document : Document) : dictionary float :=
  let inputData := store "telDiameter" (number_in document "telDiameter") [] in
  let inputData := store "telFocalLength" (number_in document "telFocalLength") inputData in
  let inputData := store "epFocalLength" (number_in document "epFocalLength") inputData in
  let inputData := store "barlowFactor" 1%float inputData in
  let inputData := store "focalReducerFactor" 1%float inputData in
  let inputData :=
    if negb (hidden (getElementById document "barlowPower"))
    then store "barlowFactor" (number_in document "barlowPower") inputData
    else inputData in
  if negb (hidden (getElementById document "fReducerFactor"))
  then store "focalReducerFactor" (number_in document "fReducerFactor") inputData
  else inputData.

(** Check that all the inputs are numeric: the loop throws at the first
    key, in insertion order, whose value is NaN. *)
Fixpoint check_numeric (entries : dictionary float) : option Exception :=
  match entries with
  | [] => None
  | (key, v) :: rest =>
      if PrimFloat.is_nan v
      then Some (SyntaxError ("Textbox input for " ++ key ++ " is not a number."))
      else check_numeric rest
  end.

(** Calculate the results (exit pupil is not asked for). *)
Definition results : method float (float * float * float * float * float) :=
  magnification <- calcMagnification ;;
  lowerLimMag <- calcLowerMagnificationLimit ;;
  upperLimMag <- calcUpperMagnificationLimit ;;
  fNumber <- calcFocalRatio ;;
  dawesLimit <- calcDawesLimit ;;
  ret (magnification, lowerLimMag, upperLimMag, fNumber, dawesLimit).

(** Display the results on the page. *)
Definition display (r : float * float * float * float * float) (document : Document)
    : Document :=
  let '(magnification, lowerLimMag, upperLimMag, fNumber, dawesLimit) := r in
  let document :=
    update "magResult" (set_textContent (toFixed_string magnification 2 ++ " x")) document in
  let document :=
    update "lowerMagLimit" (set_textContent (toFixed_string lowerLimMag 2 ++ " x")) document in
  let document :=
    update "upperMagLimit" (set_textContent (toFixed_string upperLimMag 2 ++ " x")) document in
  let document :=
    update "fRatioResult" (set_textContent (toFixed_string fNumber 2)) document in
  update "dawesLimitRes" (set_textContent (toFixed_string dawesLimit 2 ++ " arcsec")) document.

(** The part of [try] between reading the form and writing the page: the
    NaN check, the construction and the five calls; the exception thrown,
    or the five results. *)
Definition calculate (inputData : dictionary float)
    : Exception + float * float * float * float * float :=
  match check_numeric inputData with
  | Some e => inl e
  | None =>
      match constructor (lookup "telDiameter" inputData)
                        (lookup "telFocalLength" inputData)
                        (lookup "epFocalLength" inputData)
                        (lookup "barlowFactor" inputData)
                        (lookup "focalReducerFactor" inputData) with
      | Throw e => inl (ClassError e)
      | Normal telescope =>
          match fst (results telescope) with
          | Throw e => inl (ClassError e)
          | Normal r => inr r
          end
      end
  end.

(** The body of [try]: the exception thrown, or the page with the results.
    Nothing is written to the page before the last possible throw. *)
Definition try_block (document : Document) : Exception + Document :=
  match calculate (inputData document) with
  | inl e => inl e
  | inr r => inr (display r document)
  end.

(** Every result container shows the message, in italic. *)
Definition show_message (message : string) (document : Document) : Document :=
  fold_left
    (fun document entry =>
       update (snd entry) (set_fontStyle "italic")
         (update (snd entry) (set_textContent message) document))
    resultContainers document.

(** The two [if]s of [catch]. *)
Definition catch_block (e : Exception) (document : Document) : Document :=
  let rangeErrorMessage := rangeErrorMessage (lang document) in
  let incorrectTypeErrorMessage := incorrectTypeErrorMessage (lang document) in
  let document :=
    match e with
    | ClassError (RangeError _) => console_log e (show_message rangeErrorMessage document)
    | _ => document
    end in
  match e with
  | SyntaxError _ => console_log e (show_message incorrectTypeErrorMessage document)
  | _ => document
  end.

Definition calcTelescopeCharacteristics (document : Document) : Document :=
  let document := update_all is_resultDisplay (set_fontStyle "") document in
  match try_block document with
  | inr document' => document'
  | inl e => catch_block e document
  end.

(** ** The listeners

    The script registers [showBarlowBox] and [showFocalReducerBox] for the
    [change] event of the two checkboxes, [calcTelescopeCharacteristics]
    for a click on [calcMag] and [resetForm] for a click on [resetBtn].
    A user ticks or unticks a checkbox (the browser flips [checked] and
    then fires [change] with the checkbox as target), clicks, or types
    into a box. *)

Inductive UserAction : Type :=
| tick (id : string)
| click (id : string)
| type_text (id : string) (text : string).

Definition handle (action : UserAction) (document : Document) : Document :=
  match action with
  | tick id =>
      let document := update id (fun el => set_checked (negb (checked el)) el) document in
      let event := {| target := getElementById document id |} in
      if String.eqb id "includeBarlow" then showBarlowBox event document
      else if String.eqb id "includeFocalReducer" then showFocalReducerBox event document
      else document
  | click id =>
      if String.eqb id "calcMag" then calcTelescopeCharacteristics document
      else if String.eqb id "resetBtn" then resetForm document
      else document
  | type_text id text => update id (set_value text) document
  end.

Definition session (actions : list UserAction) (document : Document) : Document :=
  fold_left (fun document action => handle action document) actions document.

End Script.

(** ** Notions used to state properties of the page *)

(** The ids of the five result containers. *)
Definition is_container (id : string) : bool :=
  existsb (String.eqb id) (map snd resultContainers).

(** The Barlow box and its label are shown exactly when the Barlow
    checkbox is ticked, and likewise for the focal reducer. *)
Definition boxes_follow_checkboxes (document : Document) : Prop :=
  hidden (getElementById document "barlowLabel") =
    negb (checked (getElementById document "includeBarlow")) /\
  hidden (getElementById document "barlowPower") =
    negb (checked (getElementById document "includeBarlow")) /\
  hidden (getElementById document "fReducerLabel") =
    negb (checked (getElementById document "includeFocalReducer")) /\
  hidden (getElementById document "fReducerFactor") =
    negb (checked (getElementById document "includeFocalReducer")).

(** A checkbox that [form.reset()] of [magCalc] unticks. *)
Definition unticked_by_reset (el : Element) : Prop :=
  in_magCalc el = true /\ defaultChecked el = false.

(** The invariant of a session: boxes follow checkboxes, together with the
    two facts about the page that never change and that [resetForm]
    relies on. *)
Definition session_invariant (document : Document) : Prop :=
  unticked_by_reset (getElementById document "includeBarlow") /\
  unticked_by_reset (getElementById document "includeFocalReducer") /\
  boxes_follow_checkboxes document.

(** Two elements that differ at most in [textContent] and [fontStyle]. *)
Definition same_control (el el' : Element) : Prop :=
  value el = value el' /\ defaultValue el = defaultValue el' /\
  checked el = checked el' /\ defaultChecked el = defaultChecked el' /\
  hidden el = hidden el' /\ classList el = classList el' /\ form el = form el'.

(** The text that a successful run writes into the element [id]: [None]
    when it writes none there. *)
Definition result_text {browser : Browser}
    (r : float * float * float * float * float) (id : string) : option string :=
  let '(magnification, lowerLimMag, upperLimMag, fNumber, dawesLimit) := r in
  if String.eqb id "magResult" then Some (toFixed_string magnification 2 ++ " x")
  else if String.eqb id "lowerMagLimit" then Some (toFixed_string lowerLimMag 2 ++ " x")
  else if String.eqb id "upperMagLimit" then Some (toFixed_string upperLimMag 2 ++ " x")
  else if String.eqb id "fRatioResult" then Some (toFixed_string fNumber 2)
  else if String.eqb id "dawesLimitRes" then Some (toFixed_string dawesLimit 2 ++ " arcsec")
  else None.

(** A browser for the examples: [Number(text)] is tabulated on the few
    texts the examples type (every other text is mapped to NaN, which is
    not what a browser does for other numerals), and large values print as
    an empty text. *)
Definition example_browser : Browser :=
  {| StringToNumber := fun text =>
       if String.eqb text "200" then 200%float
       else if String.eqb text "1000" then 1000%float
       else if String.eqb text "10" then 10%float
       else if String.eqb text "2" then 2%float
       else if String.eqb text "0" then 0%float
       else nan;
     NumberToString := fun _ => "" |}.

(** A page for the examples: three boxes filled in, the optional boxes
    hidden and their checkboxes unticked, every other element an empty
    display of class [resultDisplay]. *)
Definition example_page (d f e : string) : Document :=
  let box text := mkElement text "0" false false false "" "" [] (Some "magCalc") in
  let checkbox := mkElement "on" "on" false false false "" "" [] (Some "magCalc") in
  {| lang := None;
     elements := fun id =>
       if String.eqb id "telDiameter" then box d
       else if String.eqb id "telFocalLength" then box f
       else if String.eqb id "epFocalLength" then box e
       else if String.eqb id "barlowPower" then set_hidden true (box "2")
       else if String.eqb id "fReducerFactor" then set_hidden true (box "abc")
       else if String.eqb id "barlowLabel" then set_hidden true (box "")
       else if String.eqb id "fReducerLabel" then set_hidden true (box "")
       else if String.eqb id "includeBarlow" then checkbox
       else if String.eqb id "includeFocalReducer" then checkbox
       else mkElement "" "" false false false "" "" ["resultDisplay"] None;
     console := [] |}.

Close Scope string_scope.
(** * Properties *)

Local Open Scope float_scope.

(** ** Comparisons of binary64 values with zero *)

Lemma Prim2SF_0 : Prim2SF 0 = S754_zero false.
Proof. reflexivity. Qed.

(** A Number that is [> 0] is not [<= 0]. *)
Lemma positive_not_le0 (x : float) : positive_number x -> (x <=? 0) = false.
Proof.
  unfold positive_number.
  rewrite FloatAxioms.ltb_spec, FloatAxioms.leb_spec, Prim2SF_0.
  destruct (Prim2SF x) as [s | s | | s m e];
    unfold SFltb, SFleb; simpl; try discriminate;
    destruct s; simpl; congruence.
Qed.

Lemma nan_not_self_equal (x : float) : Prim2SF x = S754_nan -> PrimFloat.is_nan x = true.
Proof.
  intros Hx. unfold PrimFloat.is_nan. rewrite FloatAxioms.eqb_spec, Hx. reflexivity.
Qed.

(** Apart from NaN, a Number that is not [<= 0] is [> 0]. *)
Lemma not_le0_positive (x : float) :
  not_nan x -> (x <=? 0) = false -> positive_number x.
Proof.
  unfold not_nan, positive_number. intros Hnan.
  rewrite FloatAxioms.ltb_spec, FloatAxioms.leb_spec, Prim2SF_0.
  destruct (Prim2SF x) as [s | s | | s m e] eqn:Hx;
    unfold SFltb, SFleb; simpl; try discriminate.
  - destruct s; simpl; congruence.
  - apply nan_not_self_equal in Hx. congruence.
  - destruct s; simpl; congruence.
Qed.

(** A Number that is [> 0] is not zero. *)
Lemma positive_nonzero (x : float) : positive_number x -> (x =? 0) = false.
Proof.
  unfold positive_number.
  rewrite FloatAxioms.ltb_spec, FloatAxioms.eqb_spec, Prim2SF_0.
  destruct (Prim2SF x) as [s | s | | s m e];
    unfold SFltb, SFeqb; simpl; try discriminate;
    destruct s; simpl; congruence.
Qed.

Lemma one_positive : positive_number 1.
Proof. reflexivity. Qed.

(** Reading the interface at binary64: literals and operators become the
    primitive ones. *)
Ltac binary64_ops :=
  change (@lit float binary64 0%Z) with 0 in *;
  change (@lit float binary64 1%Z) with 1 in *;
  change (@lit float binary64 2%Z) with 2 in *;
  change (@lit float binary64 6%Z) with 6 in *;
  change (@lit float binary64 116%Z) with 116 in *;
  change (@num_le float binary64) with PrimFloat.leb in *;
  change (@num_mul float binary64) with PrimFloat.mul in *;
  change (@num_div float binary64) with PrimFloat.div in *.

Ltac unfold_setters :=
  unfold set_telDiameter, set_telFocalLength, set_epFocalLength,
    set_barlowFactor, set_focalReducerFactor; binary64_ops.

(** ** What the constructor and the setters do with a value *)

Lemma default_positive (arg : option float) :
  (forall v, arg = Some v -> positive_number v) -> positive_number (default 1 arg).
Proof.
  intros Harg. destruct arg; simpl; [ apply Harg; reflexivity | exact one_positive ].
Qed.

(** All checks pass on positive values: the object holds the arguments. *)
Lemma constructor_accepts (d f e : float) (b r : option float) :
  positive_number d -> positive_number f -> positive_number e ->
  positive_number (default 1 b) -> positive_number (default 1 r) ->
  constructor (Some d) (Some f) (Some e) b r =
    Normal (mkTelescopeCalc d f e (default 1 b) (default 1 r)).
Proof.
  intros Hd Hf He Hb Hr.
  unfold constructor. binary64_ops.
  rewrite (positive_not_le0 Hd), (positive_not_le0 Hf), (positive_not_le0 He),
    (positive_not_le0 Hb), (positive_not_le0 Hr).
  reflexivity.
Qed.

Lemma setter_accepts (p : property) (v : float) (t : TelescopeCalc float) :
  positive_number v -> setter p v t = (Normal tt, replaced p v t).
Proof.
  intros Hpos. apply positive_not_le0 in Hpos.
  destruct p; simpl; unfold_setters; rewrite Hpos; reflexivity.
Qed.

Lemma setter_rejects (p : property) (v : float) (t : TelescopeCalc float) :
  (v <=? 0) = true ->
  exists message, setter p v t = (Throw (RangeError message), t).
Proof.
  intros Hle.
  destruct p; simpl; unfold_setters; rewrite Hle; eexists; reflexivity.
Qed.

(** A computation called right after a successful assignment runs on the
    object with the field replaced. *)
Lemma setter_then (A : Type) (m : method float A)
    (p : property) (v : float) (t : TelescopeCalc float) :
  positive_number v -> (setter p v ;; m) t = m (replaced p v t).
Proof.
  intros Hpos. unfold bind. rewrite (setter_accepts p t Hpos). reflexivity.
Qed.

(** ** Construction *)

(** C1.  For positive Numbers [d], [f], [e] and factors [b], [r] that are
    each either omitted or positive, [new TelescopeCalc(d, f, e, b, r)]
    returns an object, and on it each of the five getters returns exactly
    the Number supplied for its field, leaving the object as it was; an
    omitted factor reads back as [1]. *)
Theorem construction_succeeds_and_getters_return_arguments
    (d f e : float) (b r : option float) :
  positive_number d -> positive_number f -> positive_number e ->
  (forall v, b = Some v -> positive_number v) ->
  (forall v, r = Some v -> positive_number v) ->
  exists t : TelescopeCalc float,
    constructor (Some d) (Some f) (Some e) b r = Normal t /\
    get_telDiameter t = (Normal d, t) /\
    get_telFocalLength t = (Normal f, t) /\
    get_epFocalLength t = (Normal e, t) /\
    get_barlowFactor t = (Normal (match b with Some v => v | None => 1 end), t) /\
    get_focalReducerFactor t = (Normal (match r with Some v => v | None => 1 end), t).
Proof.
  intros Hd Hf He Hb Hr.
  eexists. split.
  - apply constructor_accepts; auto using default_positive.
  - destruct b, r; repeat split; reflexivity.
Qed.

Lemma construction_succeeds_witness :
  exists t : TelescopeCalc float,
    constructor (Some 200) (Some 1000) (Some 10) (Some 2) None = Normal t /\
    get_telDiameter t = (Normal 200, t) /\
    get_telFocalLength t = (Normal 1000, t) /\
    get_epFocalLength t = (Normal 10, t) /\
    get_barlowFactor t = (Normal 2, t) /\
    get_focalReducerFactor t = (Normal 1, t).
Proof.
  apply (@construction_succeeds_and_getters_return_arguments 200 1000 10 (Some 2) None).
  - reflexivity.
  - reflexivity.
  - reflexivity.
  - intros v Hv. injection Hv as <-. reflexivity.
  - intros v Hv. discriminate Hv.
Defined.

(** C2.  A missing required argument is reported first, whatever the other
    arguments are: if any of the first three is absent the constructor
    throws its TypeError.  With all three present, the five values (the
    factors after defaulting) are tested against [<= 0] in the order
    aperture, focal length, eyepiece focal length, Barlow, focal reducer,
    and the constructor throws the RangeError of the first one that is
    [<= 0]; so it throws a RangeError whenever any of the five is [<= 0]. *)
Theorem constructor_reports_first_violation (td tf ef bf rf : option float) :
  ((td = None \/ tf = None \/ ef = None) ->
   constructor td tf ef bf rf =
     Throw (TypeError "arguments telDiameter, telFocalLength, epFocalLength are required.")) /\
  (forall d f e : float, td = Some d -> tf = Some f -> ef = Some e ->
   let b := default 1 bf in
   let r := default 1 rf in
   ((d <=? 0) = true ->
    constructor td tf ef bf rf =
      Throw (RangeError "argument telDiameter has to be greater than 0.")) /\
   ((d <=? 0) = false -> (f <=? 0) = true ->
    constructor td tf ef bf rf =
      Throw (RangeError "argument telFocalLength has to be greater than 0.")) /\
   ((d <=? 0) = false -> (f <=? 0) = false -> (e <=? 0) = true ->
    constructor td tf ef bf rf =
      Throw (RangeError "argument epFocalLength has to be greater than 0.")) /\
   ((d <=? 0) = false -> (f <=? 0) = false -> (e <=? 0) = false -> (b <=? 0) = true ->
    constructor td tf ef bf rf =
      Throw (RangeError "argument barlowFactor has to be greater than 0.")) /\
   ((d <=? 0) = false -> (f <=? 0) = false -> (e <=? 0) = false -> (b <=? 0) = false ->
    (r <=? 0) = true ->
    constructor td tf ef bf rf =
      Throw (RangeError "argument focalReducerFactor has to be greater than 0.")) /\
   (((d <=? 0) = true \/ (f <=? 0) = true \/ (e <=? 0) = true \/
     (b <=? 0) = true \/ (r <=? 0) = true) ->
    exists message, constructor td tf ef bf rf = Throw (RangeError message))).
Proof.
  split.
  - intros [-> | [-> | ->]]; [ | destruct td | destruct td, tf ]; reflexivity.
  - intros d f e -> -> -> b r. unfold constructor. binary64_ops.
    fold b r.
    repeat split.
    + intros ->. reflexivity.
    + intros -> ->. reflexivity.
    + intros -> -> ->. reflexivity.
    + intros -> -> -> ->. reflexivity.
    + intros -> -> -> -> ->. reflexivity.
    + intros Hany.
      destruct (d <=? 0) eqn:Hd; [ eexists; reflexivity | ].
      destruct (f <=? 0) eqn:Hf; [ eexists; reflexivity | ].
      destruct (e <=? 0) eqn:He; [ eexists; reflexivity | ].
      destruct (b <=? 0) eqn:Hb; [ eexists; reflexivity | ].
      destruct (r <=? 0) eqn:Hr; [ eexists; reflexivity | ].
      destruct Hany as [Hx | [Hx | [Hx | [Hx | Hx]]]]; discriminate Hx.
Qed.

Lemma constructor_reports_first_violation_witness :
  constructor None (Some (-5)) (Some 10) None None =
    Throw (TypeError "arguments telDiameter, telFocalLength, epFocalLength are required.") /\
  constructor (Some 200) (Some 0) (Some (-10)) None None =
    Throw (RangeError "argument telFocalLength has to be greater than 0.") /\
  constructor (Some 200) (Some 1000) (Some 10) None (Some (-0.5)) =
    Throw (RangeError "argument focalReducerFactor has to be greater than 0.").
Proof.
  split; [ | split ].
  - apply (proj1 (constructor_reports_first_violation
                    None (Some (-5)) (Some 10) None None)).
    left. reflexivity.
  - pose proof (proj2 (constructor_reports_first_violation
                         (Some 200) (Some 0) (Some (-10)) None None)
                  200 0 (-10) eq_refl eq_refl eq_refl) as Horder.
    apply (proj1 (proj2 Horder)); reflexivity.
  - pose proof (proj2 (constructor_reports_first_violation
                         (Some 200) (Some 1000) (Some 10) None (Some (-0.5)))
                  200 1000 10 eq_refl eq_refl eq_refl) as Horder.
    apply (proj1 (proj2 (proj2 (proj2 (proj2 Horder))))); reflexivity.
Defined.
(** ** The range invariant *)

Section Invariant.

(** Any property [Q] of Numbers that every value passing the test
    [!(v <= 0)] has is established for all fields by the constructor and
    kept by every setter call, whether it throws or not. *)
Variable Q : float -> Prop.

Lemma constructor_establishes (td tf ef bf rf : option float) (t : TelescopeCalc float) :
  (forall v, td = Some v -> (v <=? 0) = false -> Q v) ->
  (forall v, tf = Some v -> (v <=? 0) = false -> Q v) ->
  (forall v, ef = Some v -> (v <=? 0) = false -> Q v) ->
  ((default 1 bf <=? 0) = false -> Q (default 1 bf)) ->
  ((default 1 rf <=? 0) = false -> Q (default 1 rf)) ->
  constructor td tf ef bf rf = Normal t ->
  forall p, Q (backing p t).
Proof.
  intros Hd Hf He Hb Hr.
  unfold constructor. binary64_ops.
  destruct td as [d | ], tf as [f | ], ef as [e | ]; try discriminate.
  destruct (d <=? 0) eqn:Ed; [ discriminate | ].
  destruct (f <=? 0) eqn:Ef; [ discriminate | ].
  destruct (e <=? 0) eqn:Ee; [ discriminate | ].
  destruct (default 1 bf <=? 0) eqn:Eb; [ discriminate | ].
  destruct (default 1 rf <=? 0) eqn:Er; [ discriminate | ].
  intros [= <-] p. destruct p; simpl; auto.
Qed.

Lemma setter_keeps (p : property) (v : float) (t : TelescopeCalc float) :
  ((v <=? 0) = false -> Q v) ->
  (forall q, Q (backing q t)) ->
  forall q, Q (backing q (snd (setter p v t))).
Proof.
  intros Hv Ht q.
  destruct p; simpl;
    unfold set_telDiameter, set_telFocalLength, set_epFocalLength,
      set_barlowFactor, set_focalReducerFactor; binary64_ops;
    (destruct (v <=? 0) eqn:Ev; simpl; [ apply Ht | ]);
    destruct q; simpl; try (apply Hv; reflexivity);
    first [ exact (Ht telDiameter) | exact (Ht telFocalLength)
          | exact (Ht epFocalLength) | exact (Ht barlowFactor)
          | exact (Ht focalReducerFactor) ].
Qed.

Lemma assignments_keep (calls : list (property * float)) (t : TelescopeCalc float) :
  Forall (fun call => (snd call <=? 0) = false -> Q (snd call)) calls ->
  (forall q, Q (backing q t)) ->
  forall q, Q (backing q (assignments calls t)).
Proof.
  revert t. induction calls as [ | [p v] rest IH]; intros t Hcalls Ht.
  - exact Ht.
  - inversion Hcalls as [ | call calls' Hv Hrest]; subst. simpl.
    apply IH; [ exact Hrest | ].
    apply setter_keeps; [ exact Hv | exact Ht ].
Qed.

End Invariant.

(** C3, as stated, fails: NaN is a Number that is not [<= 0], so the
    constructor accepts it (and so does every setter), and the resulting
    field is not [> 0]. *)
Lemma invariant_broken_by_NaN :
  ~ (forall (td tf ef bf rf : option float) (calls : list (property * float))
            (t : TelescopeCalc float),
        constructor td tf ef bf rf = Normal t -> valid (assignments calls t)).
Proof.
  intros Hclaim.
  pose proof (Hclaim (Some nan) (Some 1) (Some 1) None None [] _ eq_refl telDiameter)
    as Hpositive.
  vm_compute in Hpositive. discriminate Hpositive.
Qed.

(** C3, amended.  Take any object obtained from a constructor call that
    returned, followed by any sequence of setter calls, throwing or not.
    None of its five fields is [<= 0].  If moreover none of the Numbers
    handed to the constructor and to the setters is NaN, all five fields are
    [> 0]. *)
Theorem range_invariant
    (td tf ef bf rf : option float) (calls : list (property * float))
    (t : TelescopeCalc float) :
  constructor td tf ef bf rf = Normal t ->
  none_out_of_range (assignments calls t) /\
  (supplied_not_nan td -> supplied_not_nan tf -> supplied_not_nan ef ->
   supplied_not_nan bf -> supplied_not_nan rf ->
   Forall (fun call => not_nan (snd call)) calls ->
   valid (assignments calls t)).
Proof.
  intros Hnew. unfold none_out_of_range, valid. split.
  - apply assignments_keep with (Q := fun x => (x <=? 0) = false).
    + apply Forall_forall. intros call _ Hcall. exact Hcall.
    + eapply constructor_establishes with (Q := fun x => (x <=? 0) = false);
        [ .. | exact Hnew ]; auto.
  - intros Hd Hf He Hb Hr Hcalls.
    apply assignments_keep with (Q := positive_number).
    + eapply Forall_impl; [ | exact Hcalls ].
      intros call Hcall Hle. apply not_le0_positive; assumption.
    + eapply constructor_establishes with (Q := positive_number);
        [ .. | exact Hnew ].
      * intros v ->. apply not_le0_positive. exact Hd.
      * intros v ->. apply not_le0_positive. exact Hf.
      * intros v ->. apply not_le0_positive. exact He.
      * apply not_le0_positive. destruct bf; [ exact Hb | reflexivity ].
      * apply not_le0_positive. destruct rf; [ exact Hr | reflexivity ].
Qed.

Lemma range_invariant_witness :
  none_out_of_range
    (assignments [(barlowFactor, -1); (telDiameter, 150); (epFocalLength, 0)]
       (mkTelescopeCalc 200 1000 10 1 1)) /\
  valid
    (assignments [(barlowFactor, -1); (telDiameter, 150); (epFocalLength, 0)]
       (mkTelescopeCalc 200 1000 10 1 1)).
Proof.
  pose proof (@range_invariant (Some 200) (Some 1000) (Some 10) None None
                [(barlowFactor, -1); (telDiameter, 150); (epFocalLength, 0)]
                (mkTelescopeCalc 200 1000 10 1 1) eq_refl) as [Hrange Hvalid].
  split; [ exact Hrange | ].
  apply Hvalid; try reflexivity; try exact I.
  repeat constructor.
Defined.

(** ** Setters *)

(** C4.  For each of the five properties and every object (whatever its
    other fields hold: they are not looked at), assigning a value [<= 0]
    throws a RangeError and hands the object back unchanged; assigning a
    value [> 0] returns normally with exactly that one field replaced, so
    that the getter of the assigned property reads the new value, the
    other four getters read what they read before, and any computation
    called next runs on the replaced field: after [obj.telDiameter = v],
    [calcDawesLimit()] is [116 / v]. *)
Theorem setter_replaces_only_its_field
    (p : property) (v : float) (t : TelescopeCalc float) :
  ((v <=? 0) = true ->
   exists message, setter p v t = (Throw (RangeError message), t)) /\
  (positive_number v ->
   setter p v t = (Normal tt, replaced p v t) /\
   (forall q, getter q (replaced p v t) =
              (Normal (if property_eqb p q then v else backing q t), replaced p v t)) /\
   (forall c, (setter p v ;; calc c) t = calc c (replaced p v t)) /\
   (set_telDiameter v ;; calcDawesLimit) t = (Normal (116 / v), with_telDiameter v t)).
Proof.
  split.
  - apply setter_rejects.
  - intros Hpos. repeat split.
    + apply setter_accepts. exact Hpos.
    + intros q. destruct p, q; reflexivity.
    + intros c. apply setter_then. exact Hpos.
    + change set_telDiameter with (setter (num := float) telDiameter).
      rewrite (setter_then _ telDiameter t Hpos). reflexivity.
Qed.

Lemma setter_replaces_only_its_field_witness :
  (exists message,
     setter barlowFactor (-1) (mkTelescopeCalc 200 1000 10 1 1) =
       (Throw (RangeError message), mkTelescopeCalc 200 1000 10 1 1)) /\
  setter telDiameter 116 (mkTelescopeCalc 200 1000 10 1 1) =
    (Normal tt, mkTelescopeCalc 116 1000 10 1 1) /\
  (set_telDiameter 116 ;; calcDawesLimit) (mkTelescopeCalc 200 1000 10 1 1) =
    (Normal 1, mkTelescopeCalc 116 1000 10 1 1).
Proof.
  split; [ | split ].
  - apply (proj1 (setter_replaces_only_its_field
                    barlowFactor (-1) (mkTelescopeCalc 200 1000 10 1 1))).
    reflexivity.
  - apply (proj2 (setter_replaces_only_its_field
                    telDiameter 116 (mkTelescopeCalc 200 1000 10 1 1))).
    reflexivity.
  - apply (proj2 (setter_replaces_only_its_field
                    telDiameter 116 (mkTelescopeCalc 200 1000 10 1 1))).
    reflexivity.
Defined.

(** ** The computations *)

(** C5.  On every object (in particular on every valid one)
    [calcMagnification()] returns
    [barlowFactor * telFocalLength * focalReducerFactor / epFocalLength],
    evaluated left to right in binary64, and leaves the object as it was.
    For [d = 200, f = 1000, e = 10, b = 1, r = 1] the result is exactly
    [100]. *)
Theorem magnification_formula :
  (forall t : TelescopeCalc float,
     calcMagnification t =
       (Normal (_barlowFactor t * _telFocalLength t * _focalReducerFactor t
                / _epFocalLength t), t)) /\
  (exists t : TelescopeCalc float,
     constructor (Some 200) (Some 1000) (Some 10) (Some 1) (Some 1) = Normal t /\
     calcMagnification t = (Normal 100, t)).
Proof.
  split.
  - intros t. reflexivity.
  - eexists. split; reflexivity.
Qed.

(** C6.  On every object [calcExitPupil()] returns [telDiameter / m],
    where [m] is what [calcMagnification()] returns on the same object at
    that moment; nothing is cached, so after a successful assignment to any
    property the exit pupil is the one of the object with that field
    replaced.  For [d = 200, f = 1000, e = 10, b = 1, r = 1] the result is
    exactly [2]. *)
Theorem exit_pupil_formula :
  (forall t : TelescopeCalc float,
     exists m : float,
       calcMagnification t = (Normal m, t) /\
       calcExitPupil t = (Normal (_telDiameter t / m), t)) /\
  (forall (p : property) (v : float) (t : TelescopeCalc float),
     positive_number v ->
     let t' := replaced p v t in
     (setter p v ;; calcExitPupil) t =
       (Normal (_telDiameter t' /
                (_barlowFactor t' * _telFocalLength t' * _focalReducerFactor t'
                 / _epFocalLength t')), t')) /\
  (exists t : TelescopeCalc float,
     constructor (Some 200) (Some 1000) (Some 10) (Some 1) (Some 1) = Normal t /\
     calcExitPupil t = (Normal 2, t)).
Proof.
  split; [ | split ].
  - intros t. eexists. split; reflexivity.
  - intros p v t Hpos t'.
    rewrite (setter_then calcExitPupil p t Hpos). reflexivity.
  - eexists. split; reflexivity.
Qed.

Lemma exit_pupil_formula_witness :
  (set_epFocalLength 20 ;; calcExitPupil) (mkTelescopeCalc 200 1000 10 1 1) =
    (Normal 4, mkTelescopeCalc 200 1000 20 1 1).
Proof.
  apply (proj1 (proj2 exit_pupil_formula)
           epFocalLength 20 (mkTelescopeCalc 200 1000 10 1 1)).
  reflexivity.
Defined.

(** C7.  On every object [calcFocalRatio()] returns
    [(barlowFactor * telFocalLength / telDiameter) * focalReducerFactor] and
    leaves the object as it was.  For [d = 200, f = 1000, b = 2, r = 0.5]
    and any eyepiece focal length [e > 0] the result is exactly [5]. *)
Theorem focal_ratio_formula :
  (forall t : TelescopeCalc float,
     calcFocalRatio t =
       (Normal ((_barlowFactor t * _telFocalLength t / _telDiameter t)
                * _focalReducerFactor t), t)) /\
  (forall e : float, positive_number e ->
     exists t : TelescopeCalc float,
       constructor (Some 200) (Some 1000) (Some e) (Some 2) (Some 0.5) = Normal t /\
       calcFocalRatio t = (Normal 5, t)).
Proof.
  split.
  - intros t. reflexivity.
  - intros e He. eexists. split.
    + apply constructor_accepts; try reflexivity. exact He.
    + reflexivity.
Qed.

Lemma focal_ratio_formula_witness :
  exists t : TelescopeCalc float,
    constructor (Some 200) (Some 1000) (Some 25) (Some 2) (Some 0.5) = Normal t /\
    calcFocalRatio t = (Normal 5, t).
Proof.
  apply (proj2 focal_ratio_formula 25). reflexivity.
Defined.

(** C8.  The three aperture-only computations: on every object
    [calcLowerMagnificationLimit()] is [telDiameter / 6],
    [calcUpperMagnificationLimit()] is [2 * telDiameter] and
    [calcDawesLimit()] is [116 / telDiameter]; two objects with the same
    aperture give the same three results whatever their other four fields
    are.  With [telDiameter = 200] the lower limit prints as ["33.33"]
    under [toFixed(2)] and the upper limit is exactly [400]; with
    [telDiameter = 116] the Dawes limit is exactly [1]. *)
Theorem aperture_only_computations :
  (forall t : TelescopeCalc float,
     calcLowerMagnificationLimit t = (Normal (_telDiameter t / 6), t) /\
     calcUpperMagnificationLimit t = (Normal (2 * _telDiameter t), t) /\
     calcDawesLimit t = (Normal (116 / _telDiameter t), t)) /\
  (forall d f e b r f' e' b' r' : float,
     fst (calcLowerMagnificationLimit (mkTelescopeCalc d f e b r)) =
       fst (calcLowerMagnificationLimit (mkTelescopeCalc d f' e' b' r')) /\
     fst (calcUpperMagnificationLimit (mkTelescopeCalc d f e b r)) =
       fst (calcUpperMagnificationLimit (mkTelescopeCalc d f' e' b' r')) /\
     fst (calcDawesLimit (mkTelescopeCalc d f e b r)) =
       fst (calcDawesLimit (mkTelescopeCalc d f' e' b' r'))) /\
  (forall f e b r : float,
     (exists x : float,
        fst (calcLowerMagnificationLimit (mkTelescopeCalc 200 f e b r)) = Normal x /\
        toFixed x 2 = Some "33.33"%string) /\
     fst (calcUpperMagnificationLimit (mkTelescopeCalc 200 f e b r)) = Normal 400 /\
     fst (calcDawesLimit (mkTelescopeCalc 116 f e b r)) = Normal 1).
Proof.
  split; [ | split ].
  - intros t. repeat split; reflexivity.
  - intros. repeat split; reflexivity.
  - intros f e b r. repeat split.
    eexists. split; [ reflexivity | ]. vm_compute. reflexivity.
Qed.

(** ** Rounding keeps the sign

    The IEEE operations round a non-negative exact result to [+0], to a
    positive finite value or to [+Infinity], never to NaN. *)

Lemma shr_1_nonneg (mrs : shr_record) :
  (0 <= shr_m mrs)%Z -> (0 <= shr_m (shr_1 mrs))%Z.
Proof.
  destruct mrs as [m r s]. simpl.
  destruct m as [ | p | p ]; [ | destruct p | ]; simpl; lia.
Qed.

Lemma iter_shr_1_nonneg (n : positive) :
  forall mrs : shr_record,
    (0 <= shr_m mrs)%Z -> (0 <= shr_m (iter_pos shr_1 n mrs))%Z.
Proof.
  induction n as [n IH | n IH | ]; intros mrs Hm; simpl.
  - apply IH, IH, shr_1_nonneg, Hm.
  - apply IH, IH, Hm.
  - apply shr_1_nonneg, Hm.
Qed.

Lemma shr_fexp_nonneg (m e : Z) (l : location) :
  (0 <= m)%Z -> (0 <= shr_m (fst (shr_fexp prec emax m e l)))%Z.
Proof.
  intros Hm. unfold shr_fexp, shr.
  assert (Hrec : (0 <= shr_m (shr_record_of_loc m l))%Z)
    by (destruct l as [ | [ | | ] ]; exact Hm).
  destruct (fexp prec emax (Zdigits2 m + e) - e)%Z; simpl;
    [ exact Hrec | apply iter_shr_1_nonneg, Hrec | exact Hrec ].
Qed.

Lemma round_nearest_even_nonneg (m : Z) (l : location) :
  (0 <= m)%Z -> (0 <= round_nearest_even m l)%Z.
Proof.
  intros Hm. destruct l as [ | [ | | ] ]; simpl;
    try destruct (Z.even m); lia.
Qed.

Lemma binary_round_aux_nonneg (m e : Z) (l : location) :
  (0 <= m)%Z -> sf_nonneg (binary_round_aux prec emax false m e l).
Proof.
  intros Hm. unfold binary_round_aux.
  pose proof (shr_fexp_nonneg e l Hm) as Hfirst.
  destruct (shr_fexp prec emax m e l) as [mrs' e']. simpl in Hfirst.
  pose proof (shr_fexp_nonneg e' loc_Exact
                (round_nearest_even_nonneg (loc_of_shr_record mrs') Hfirst)) as Hsecond.
  destruct (shr_fexp prec emax _ e' loc_Exact) as [mrs'' e'']. simpl in Hsecond.
  destruct (shr_m mrs'') as [ | q | q ].
  - exact I.
  - destruct (e'' <=? emax - prec)%Z; exact I.
  - lia.
Qed.

Lemma SFmul_nonneg (x y : spec_float) :
  sf_nonneg x -> sf_finite_positive y -> sf_nonneg (SFmul prec emax x y).
Proof.
  destruct x as [[ | ] | [ | ] | | [ | ] mx ex], y as [sy | sy | | [ | ] my ey];
    simpl; try contradiction; intros _ _; try exact I.
  apply binary_round_aux_nonneg. lia.
Qed.

Lemma SFdiv_core_quotient_nonneg (mx my : positive) (ex ey : Z) :
  (0 <= fst (fst (SFdiv_core_binary prec emax (Zpos mx) ex (Zpos my) ey)))%Z.
Proof.
  unfold SFdiv_core_binary.
  set (s := (ex - ey - _)%Z).
  set (m' := match s with Zpos _ => Z.shiftl (Zpos mx) s | Z0 => Zpos mx | Zneg _ => 0%Z end).
  assert (Hm' : (0 <= m')%Z).
  { unfold m'. destruct s; try lia. apply Z.shiftl_nonneg. lia. }
  pose proof (Z.div_pos m' (Zpos my) Hm' eq_refl) as Hq.
  unfold Z.div in Hq.
  destruct (Z.div_eucl m' (Zpos my)) as [q r]. exact Hq.
Qed.

Lemma SFdiv_nonneg (x y : spec_float) :
  (sf_nonneg x /\ sf_finite_positive y) \/ (sf_finite_positive x /\ sf_nonneg y) ->
  sf_nonneg (SFdiv prec emax x y).
Proof.
  destruct x as [[ | ] | [ | ] | | [ | ] mx ex], y as [[ | ] | [ | ] | | [ | ] my ey];
    simpl; intros [[Hx Hy] | [Hx Hy]]; try contradiction; try exact I;
    (pose proof (SFdiv_core_quotient_nonneg mx my ex ey) as Hq;
     destruct (SFdiv_core_binary prec emax (Zpos mx) ex (Zpos my) ey) as [[mz ez] lz];
     apply binary_round_aux_nonneg; exact Hq).
Qed.

(** From the decomposition back to the comparisons of the language. *)

Lemma finite_positive_decomposed (x : float) :
  positive_number x -> finite_number x -> sf_finite_positive (Prim2SF x).
Proof.
  unfold positive_number, finite_number, PrimFloat.is_finite, PrimFloat.is_infinity.
  rewrite FloatAxioms.ltb_spec, Prim2SF_0, FloatAxioms.eqb_spec, FloatAxioms.abs_spec.
  destruct (Prim2SF x) as [s | [ | ] | | [ | ] m e];
    unfold SFltb; simpl; try discriminate; intros _; try exact (fun _ => I).
  rewrite orb_true_r. discriminate.
Qed.

Lemma nonneg_decomposed (x : float) : sf_nonneg (Prim2SF x) -> (0 <=? x) = true.
Proof.
  rewrite FloatAxioms.leb_spec, Prim2SF_0.
  destruct (Prim2SF x) as [[ | ] | [ | ] | | [ | ] m e];
    simpl; try contradiction; reflexivity.
Qed.

Lemma finite_positive_nonneg (x : spec_float) : sf_finite_positive x -> sf_nonneg x.
Proof.
  destruct x as [s | s | | [ | ] m e]; simpl; intros Hx; try contradiction; exact I.
Qed.

Lemma mul_nonneg (x y : float) :
  sf_nonneg (Prim2SF x) -> sf_finite_positive (Prim2SF y) -> sf_nonneg (Prim2SF (x * y)).
Proof. rewrite FloatAxioms.mul_spec. apply SFmul_nonneg. Qed.

Lemma div_nonneg (x y : float) :
  (sf_nonneg (Prim2SF x) /\ sf_finite_positive (Prim2SF y)) \/
  (sf_finite_positive (Prim2SF x) /\ sf_nonneg (Prim2SF y)) ->
  sf_nonneg (Prim2SF (x / y)).
Proof. rewrite FloatAxioms.div_spec. apply SFdiv_nonneg. Qed.

(** ** Safety of the computations *)

(** C9, as stated, fails.  With an aperture of [5e-324] (the smallest
    positive Number, written [0x1p-1074]) the Dawes limit [116 / d]
    overflows to [Infinity]; and with [b = f = 2^-600] the product [b * f]
    underflows to [0], the magnification is [0], and the exit pupil divides
    by that zero.  All five fields of this object are finite and [> 0]. *)
Lemma computations_can_overflow_and_divide_by_zero :
  ~ (forall (c : computation) (t : TelescopeCalc float) (v : float),
       valid t -> fst (calc c t) = Normal v -> PrimFloat.is_finite v = true) /\
  (exists t : TelescopeCalc float,
     valid t /\ all_finite t /\
     fst (calcDawesLimit t) = Normal infinity /\
     fst (calcMagnification t) = Normal 0 /\
     fst (calcExitPupil t) = Normal infinity).
Proof.
  set (t := mkTelescopeCalc 0x1p-1074 0x1p-600 1 0x1p-600 1).
  assert (Hvalid : valid t) by (intros p; destruct p; reflexivity).
  split.
  - intros Hclaim.
    pose proof (Hclaim DawesLimit t infinity Hvalid eq_refl) as Hfinite.
    vm_compute in Hfinite. discriminate Hfinite.
  - exists t. split; [ exact Hvalid | ].
    split; [ intros p; destruct p; reflexivity | ].
    repeat split; reflexivity.
Qed.

(** C9, amended.  Each of the six computations, on every object, returns
    normally and leaves the object as it was, and calling it twice in a row
    gives the same result twice.  On an object whose five fields are [> 0],
    no field is zero, so the divisors [epFocalLength], [telDiameter] and
    [6.0] are not zero; if the fields are also finite, the result [v]
    satisfies [0 <= v]: it is not NaN and not negative.  The result may be
    [0] (underflow) or [Infinity] (overflow), and the magnification that
    [calcExitPupil] divides by may be [0]. *)
Theorem computations_total_pure_nonnegative (c : computation) (t : TelescopeCalc float) :
  exists v : float,
    calc c t = (Normal v, t) /\
    (x <- calc c ;; y <- calc c ;; ret (x, y)) t = (Normal (v, v), t) /\
    (valid t -> forall p : property, (backing p t =? 0) = false) /\
    (valid t -> all_finite t -> (0 <=? v) = true).
Proof.
  enough (Hsign : exists v : float,
             calc c t = (Normal v, t) /\
             (x <- calc c ;; y <- calc c ;; ret (x, y)) t = (Normal (v, v), t) /\
             (valid t -> all_finite t -> (0 <=? v) = true)).
  { destruct Hsign as (v & Hrun & Hrepeat & Hsign). exists v.
    repeat split; try assumption.
    intros Hvalid p. apply positive_nonzero, Hvalid. }
  assert (Hsix : sf_finite_positive (Prim2SF 6)) by exact I.
  assert (Htwo : sf_nonneg (Prim2SF 2)) by exact I.
  assert (Hdawes : sf_nonneg (Prim2SF 116)) by exact I.
  destruct c; eexists; (split; [ reflexivity | split; [ reflexivity | ] ]);
    intros Hvalid Hfinite; apply nonneg_decomposed;
    pose proof (finite_positive_decomposed (Hvalid telDiameter) (Hfinite telDiameter)) as Hd;
    pose proof (finite_positive_decomposed (Hvalid telFocalLength) (Hfinite telFocalLength)) as Hf;
    pose proof (finite_positive_decomposed (Hvalid epFocalLength) (Hfinite epFocalLength)) as He;
    pose proof (finite_positive_decomposed (Hvalid barlowFactor) (Hfinite barlowFactor)) as Hb;
    pose proof (finite_positive_decomposed (Hvalid focalReducerFactor) (Hfinite focalReducerFactor)) as Hr;
    simpl in Hd, Hf, He, Hb, Hr; binary64_ops.
  - (* b * f * r / e *)
    apply div_nonneg. left. split; [ | exact He ].
    apply mul_nonneg; [ | exact Hr ].
    apply mul_nonneg; [ | exact Hf ].
    apply finite_positive_nonneg, Hb.
  - (* d / 6 *)
    apply div_nonneg. left. split; [ | exact Hsix ].
    apply finite_positive_nonneg, Hd.
  - (* 2 * d *)
    apply mul_nonneg; [ exact Htwo | exact Hd ].
  - (* (b * f / d) * r *)
    apply mul_nonneg; [ | exact Hr ].
    apply div_nonneg. left. split; [ | exact Hd ].
    apply mul_nonneg; [ | exact Hf ].
    apply finite_positive_nonneg, Hb.
  - (* d / (b * f * r / e) *)
    apply div_nonneg. right. split; [ exact Hd | ].
    apply div_nonneg. left. split; [ | exact He ].
    apply mul_nonneg; [ | exact Hr ].
    apply mul_nonneg; [ | exact Hf ].
    apply finite_positive_nonneg, Hb.
  - (* 116 / d *)
    apply div_nonneg. left. split; [ exact Hdawes | exact Hd ].
Qed.

Lemma computations_total_pure_nonnegative_witness :
  exists v : float,
    calc ExitPupil (mkTelescopeCalc 200 1000 10 1 1) =
      (Normal v, mkTelescopeCalc 200 1000 10 1 1) /\
    (_epFocalLength (mkTelescopeCalc 200 1000 10 1 1) =? 0) = false /\
    (0 <=? v) = true.
Proof.
  destruct (computations_total_pure_nonnegative
              ExitPupil (mkTelescopeCalc 200 1000 10 1 1))
    as (v & Hrun & _ & Hdivisor & Hsign).
  assert (Hvalid : valid (mkTelescopeCalc 200 1000 10 1 1))
    by (intros p; destruct p; reflexivity).
  exists v. split; [ exact Hrun | split ].
  - exact (Hdivisor Hvalid epFocalLength).
  - apply Hsign; [ exact Hvalid | intros p; destruct p; reflexivity ].
Defined.

(** ** Exit pupil and focal ratio *)

(** C10, as stated, fails in binary64.  For the 200 mm f/5 telescope with
    a 6 mm eyepiece, [calcExitPupil()] is [1.2000000000000002] and
    [calcFocalRatio()] is [5]: the exit pupil is not [6 / 5], which is
    [1.2], and the product is [6.000000000000001], not [6]. *)
Lemma exit_pupil_focal_ratio_differ_by_rounding :
  ~ (forall (t : TelescopeCalc float) (x y : float),
       valid t ->
       fst (calcExitPupil t) = Normal x -> fst (calcFocalRatio t) = Normal y ->
       x = _epFocalLength t / y \/ x * y = _epFocalLength t).
Proof.
  intros Hclaim.
  set (t := mkTelescopeCalc 200 1000 6 1 1).
  assert (Hvalid : valid t) by (intros p; destruct p; reflexivity).
  destruct (Hclaim t _ _ Hvalid eq_refl eq_refl) as [Hquot | Hprod].
  - pose proof (f_equal (fun z => z =? 6 / 5) Hquot) as Hcmp.
    vm_compute in Hcmp. discriminate Hcmp.
  - pose proof (f_equal (fun z => z =? 6) Hprod) as Hcmp.
    vm_compute in Hcmp. discriminate Hcmp.
Qed.

(** ** Rounding errors

    What [binary_round_aux] makes of an exact non-negative result, as a
    bound on the distance between the exact result and the rounded one:
    half a unit in the last place, which for a normal result is at most
    [2 ^ -53] of it. *)

Section Rounding.

Local Open Scope Q_scope.
Local Unset Implicit Arguments.

(** Halving a located value: what [shr_1] does to the record. *)
Lemma inject_Z_xO (p : positive) : inject_Z (Zpos p~0) == 2 * inject_Z (Zpos p).
Proof. unfold Qeq. simpl. lia. Qed.

Lemma inject_Z_xI (p : positive) : inject_Z (Zpos p~1) == 2 * inject_Z (Zpos p) + 1.
Proof. unfold Qeq. simpl. lia. Qed.

Lemma located_shr_1 (z : Q) (mrs : shr_record) :
  (0 <= shr_m mrs)%Z -> located z mrs -> located (z / 2) (shr_1 mrs).
Proof.
  destruct mrs as [m r s]. unfold located. simpl.
  intros Hm.
  assert (Hw : z == 2 * (z / 2)) by (field).
  set (w := z / 2) in *. clearbody w.
  destruct m as [ | [p | p | ] | p ]; try lia; simpl;
    try (pose proof (inject_Z_xO p)); try (pose proof (inject_Z_xI p));
    destruct r, s; simpl; intros Hz;
    change (inject_Z 0) with 0 in *; change (inject_Z 1) with 1 in *; lra.
Qed.

Lemma located_ext (z z' : Q) (mrs : shr_record) :
  z == z' -> located z mrs -> located z' mrs.
Proof.
  intros E. unfold located. destruct (shr_r mrs), (shr_s mrs); rewrite E; trivial.
Qed.

Lemma pow2_nonzero (k : Z) : ~ 2 ^ k == 0.
Proof. apply Qpower_not_0. discriminate. Qed.

Lemma pow2_pos (k : Z) : 0 < 2 ^ k.
Proof. apply Qpower_0_lt. reflexivity. Qed.

Lemma pow2_add (a b : Z) : 2 ^ (a + b) == 2 ^ a * 2 ^ b.
Proof. apply Qpower_plus. discriminate. Qed.

Lemma pow2_xO (n : positive) : 2 ^ Zpos n~0 == 2 ^ Zpos n * 2 ^ Zpos n.
Proof.
  replace (Zpos n~0) with (Zpos n + Zpos n)%Z by lia.
  apply pow2_add.
Qed.

Lemma pow2_xI (n : positive) : 2 ^ Zpos n~1 == 2 * (2 ^ Zpos n * 2 ^ Zpos n).
Proof.
  replace (Zpos n~1) with (1 + (Zpos n + Zpos n))%Z by lia.
  rewrite !pow2_add. reflexivity.
Qed.

Lemma located_iter (n : positive) :
  forall (z : Q) (mrs : shr_record),
    (0 <= shr_m mrs)%Z -> located z mrs ->
    (0 <= shr_m (iter_pos shr_1 n mrs))%Z /\
    located (z / 2 ^ Zpos n) (iter_pos shr_1 n mrs).
Proof.
  induction n as [n IH | n IH | ]; intros z mrs Hm Hz; simpl iter_pos.
  - destruct (IH (z / 2) (shr_1 mrs)) as [H1 H2];
      [ apply shr_1_nonneg, Hm | apply located_shr_1; assumption | ].
    destruct (IH _ _ H1 H2) as [H3 H4]. split; [ exact H3 | ].
    eapply located_ext; [ | exact H4 ].
    rewrite pow2_xI. field. apply pow2_nonzero.
  - destruct (IH z mrs Hm Hz) as [H1 H2].
    destruct (IH _ _ H1 H2) as [H3 H4]. split; [ exact H3 | ].
    eapply located_ext; [ | exact H4 ].
    rewrite pow2_xO. field. apply pow2_nonzero.
  - split; [ apply shr_1_nonneg, Hm | ].
    eapply located_ext; [ | apply located_shr_1; eassumption ].
    reflexivity.
Qed.

(** Bounds read off a location. *)
Lemma located_bounds (z : Q) (mrs : shr_record) :
  located z mrs -> inject_Z (shr_m mrs) <= z /\ z < inject_Z (shr_m mrs) + 1.
Proof. unfold located. destruct (shr_r mrs), (shr_s mrs); simpl; lra. Qed.

Lemma located_round (z : Q) (mrs : shr_record) :
  located z mrs ->
  let mr := round_nearest_even (shr_m mrs) (loc_of_shr_record mrs) in
  (shr_m mrs <= mr <= shr_m mrs + 1)%Z /\
  inject_Z mr - (1#2) <= z /\ z <= inject_Z mr + (1#2).
Proof.
  destruct mrs as [m r s]. unfold located. simpl.
  destruct r, s; simpl; intros Hz;
    try destruct (Z.even m); rewrite ?inject_Z_plus;
    change (inject_Z 1) with 1; split; try lia; lra.
Qed.

(** The number of binary digits of a mantissa. *)
Lemma digits2_pos_bounds (m : positive) :
  (2 ^ (Zpos (digits2_pos m) - 1) <= Zpos m < 2 ^ Zpos (digits2_pos m))%Z.
Proof.
  induction m as [m IH | m IH | ]; simpl digits2_pos;
    rewrite ?Pos2Z.inj_succ.
  - replace (Z.succ (Zpos (digits2_pos m)) - 1)%Z
      with (Z.succ (Zpos (digits2_pos m) - 1)) by lia.
    rewrite !Z.pow_succ_r by lia. lia.
  - replace (Z.succ (Zpos (digits2_pos m)) - 1)%Z
      with (Z.succ (Zpos (digits2_pos m) - 1)) by lia.
    rewrite !Z.pow_succ_r by lia. lia.
  - simpl. lia.
Qed.

Lemma Zdigits2_upper (m : Z) : (0 <= m)%Z -> (m < 2 ^ Zdigits2 m)%Z /\ (0 <= Zdigits2 m)%Z.
Proof.
  destruct m as [ | p | p ]; simpl; intros Hm; try lia.
  pose proof (digits2_pos_bounds p). lia.
Qed.

Lemma Zdigits2_le (m k : Z) :
  (0 <= m < 2 ^ k)%Z -> (0 <= k)%Z -> (Zdigits2 m <= k)%Z.
Proof.
  destruct m as [ | p | p ]; simpl; intros Hm Hk; try lia.
  pose proof (digits2_pos_bounds p) as [Hlow _].
  assert (Hlt : (2 ^ (Zpos (digits2_pos p) - 1) < 2 ^ k)%Z) by lia.
  apply Z.pow_lt_mono_r_iff in Hlt; lia.
Qed.

Lemma inject_Z_pow2 (k : Z) : (0 <= k)%Z -> inject_Z (2 ^ k) == 2 ^ k.
Proof. intros Hk. apply (Zpower_Qpower 2 k Hk). Qed.

Lemma pow2_le (a b : Z) : (a <= b)%Z -> 2 ^ a <= 2 ^ b.
Proof. intros Hab. apply Qpower_le_compat_l; [ exact Hab | discriminate ]. Qed.

Lemma shr_m_of_loc (m : Z) (l : location) : shr_m (shr_record_of_loc m l) = m.
Proof. destruct l as [ | [ | | ] ]; reflexivity. Qed.

(** The first shift of [binary_round_aux]: the exact value stays located
    by the shifted record, and lies below [2 ^ 53] units of the new
    exponent. *)
Lemma first_stage (x : Q) (m e : Z) (l : location) :
  (0 <= m)%Z -> located (x / 2 ^ e) (shr_record_of_loc m l) ->
  let mrs1 := fst (shr_fexp prec emax m e l) in
  let e1 := snd (shr_fexp prec emax m e l) in
  (0 <= shr_m mrs1)%Z /\ located (x / 2 ^ e1) mrs1 /\
  x / 2 ^ e1 < 2 ^ prec /\ (SpecFloat.emin prec emax <= e1)%Z.
Proof.
  intros Hm Hloc.
  pose proof (Zdigits2_upper m Hm) as [Hdig Hdig0].
  pose proof (located_bounds _ _ Hloc) as [_ Hup]. rewrite shr_m_of_loc in Hup.
  assert (Hx : x / 2 ^ e < 2 ^ Zdigits2 m).
  { pose proof (inject_Z_pow2 _ Hdig0) as Epow. rewrite <- Epow.
    eapply Qlt_le_trans; [ exact Hup | ].
    change 1 with (inject_Z 1). rewrite <- inject_Z_plus. rewrite <- Zle_Qle. lia. }
  unfold shr_fexp, shr.
  destruct (fexp prec emax (Zdigits2 m + e) - e)%Z as [ | p | p ] eqn:Hn; cbn [fst snd].
  - rewrite shr_m_of_loc. repeat split; try assumption.
    + eapply Qlt_le_trans; [ exact Hx | ]. apply pow2_le. unfold fexp in Hn. lia.
    + unfold fexp in Hn. lia.
  - destruct (located_iter p _ _ (eq_ind_r (fun v => (0 <= v)%Z) Hm (shr_m_of_loc m l)) Hloc)
      as [Hnn Hl].
    assert (E : x / 2 ^ e / 2 ^ Zpos p == x / 2 ^ (e + Zpos p)).
    { rewrite pow2_add. field. split; apply pow2_nonzero. }
    repeat split.
    + exact Hnn.
    + eapply located_ext; [ exact E | exact Hl ].
    + rewrite <- E.
      apply Qlt_shift_div_r; [ apply pow2_pos | ].
      eapply Qlt_le_trans; [ exact Hx | ].
      rewrite <- pow2_add. apply pow2_le. unfold fexp in Hn. lia.
    + unfold fexp in Hn. lia.
  - rewrite shr_m_of_loc. repeat split; try assumption.
    + eapply Qlt_le_trans; [ exact Hx | ]. apply pow2_le. unfold fexp in Hn. lia.
    + unfold fexp in Hn. lia.
Qed.

(** The second shift, after the mantissa is rounded, loses nothing. *)
Lemma second_stage (mr e1 : Z) :
  (0 <= mr <= 2 ^ prec)%Z -> (SpecFloat.emin prec emax <= e1)%Z ->
  let mrs2 := fst (shr_fexp prec emax mr e1 loc_Exact) in
  let e2 := snd (shr_fexp prec emax mr e1 loc_Exact) in
  inject_Z (shr_m mrs2) * 2 ^ e2 == inject_Z mr * 2 ^ e1 /\ (e1 <= e2)%Z.
Proof.
  intros Hmr He1. unfold shr_fexp, shr. cbn [shr_record_of_loc].
  destruct (Z.eq_dec mr (2 ^ prec)) as [-> | Hneq].
  - replace (fexp prec emax (Zdigits2 (2 ^ prec) + e1) - e1)%Z with 1%Z
      by (change (Zdigits2 (2 ^ prec)) with 54%Z; unfold fexp, SpecFloat.emin, prec, emax in *; lia).
    cbn [fst snd iter_pos]. split; [ | lia ].
    change (shr_m (shr_1 {| shr_m := 2 ^ prec; shr_r := false; shr_s := false |}))
      with (2 ^ 52)%Z.
    rewrite pow2_add. change (2 ^ 1) with 2.
    change (inject_Z (2 ^ 52)) with (4503599627370496 # 1).
    change (inject_Z (2 ^ prec)) with (9007199254740992 # 1).
    field.
  - assert (Hdig : (Zdigits2 mr <= prec)%Z)
      by (apply Zdigits2_le; [ lia | unfold prec; lia ]).
    destruct (fexp prec emax (Zdigits2 mr + e1) - e1)%Z as [ | p | p ] eqn:Hn;
      cbn [fst snd shr_m]; try (split; [ reflexivity | lia ]).
    exfalso. unfold fexp in Hn. lia.
Qed.

(** The value of a finite positive result of rounding is within half a
    unit in the last place of the exact value. *)
Lemma binary_round_aux_error (x : Q) (m e : Z) (l : location) (m2 : positive) (e2 : Z) :
  (0 <= m)%Z -> located (x / 2 ^ e) (shr_record_of_loc m l) ->
  binary_round_aux prec emax false m e l = S754_finite false m2 e2 ->
  inject_Z (Zpos m2) * 2 ^ e2 - 2 ^ e2 / 2 <= x /\
  x <= inject_Z (Zpos m2) * 2 ^ e2 + 2 ^ e2 / 2.
Proof.
  intros Hm Hloc. unfold binary_round_aux.
  pose proof (first_stage x m e l Hm Hloc) as Hfirst. cbv zeta in Hfirst.
  destruct (shr_fexp prec emax m e l) as [mrs1 e1]. cbn [fst snd] in Hfirst.
  destruct Hfirst as (Hnn & Hl1 & Hbound & Hemin).
  pose proof (located_round _ _ Hl1) as Hround. cbv zeta in Hround.
  set (mr := round_nearest_even (shr_m mrs1) (loc_of_shr_record mrs1)) in *.
  destruct Hround as (Hmr & Hlow & Hhigh).
  pose proof (located_bounds _ _ Hl1) as [Hq _].
  assert (Hq1 : (shr_m mrs1 < 2 ^ prec)%Z).
  { rewrite Zlt_Qlt. pose proof (inject_Z_pow2 prec ltac:(unfold prec; lia)) as Epow.
    rewrite Epow. eapply Qle_lt_trans; eassumption. }
  pose proof (second_stage mr e1 ltac:(lia) Hemin) as Hsecond. cbv zeta in Hsecond.
  destruct (shr_fexp prec emax mr e1 loc_Exact) as [mrs2 e2']. cbn [fst snd] in Hsecond.
  destruct Hsecond as [Hval He12].
  destruct (shr_m mrs2) as [ | q | q ] eqn:Hm2; try discriminate.
  destruct (e2' <=? emax - prec)%Z; try discriminate.
  intros [= <- <-].
  assert (Hx : x == (x / 2 ^ e1) * 2 ^ e1) by (field; apply pow2_nonzero).
  pose proof (pow2_pos e1) as Hp1.
  pose proof (pow2_le e1 e2' He12) as Hp12.
  set (w := x / 2 ^ e1) in *. clearbody w.
  rewrite Hval, Hx.
  set (P1 := 2 ^ e1) in *. set (P2 := 2 ^ e2') in *. set (M := inject_Z mr) in *.
  clearbody P1 P2 M.
  clear - Hlow Hhigh Hp1 Hp12.
  assert (Hlo : 0 <= w * P1 - M * P1 + (1#2) * P1).
  { setoid_replace (w * P1 - M * P1 + (1#2) * P1) with ((w - (M - (1#2))) * P1) by ring.
    apply Qmult_le_0_compat; lra. }
  assert (Hhi : 0 <= M * P1 + (1#2) * P1 - w * P1).
  { setoid_replace (M * P1 + (1#2) * P1 - w * P1) with ((M + (1#2) - w) * P1) by ring.
    apply Qmult_le_0_compat; lra. }
  clear - Hlo Hhi Hp12.
  set (a := w * P1) in *. set (b := M * P1) in *. clearbody a b.
  setoid_replace (P2 / 2) with ((1#2) * P2) by field.
  split; lra.
Qed.

Lemma normal_half_ulp (m : positive) (e : Z) :
  Zpos (digits2_pos m) = prec ->
  2 ^ e / 2 <= unit_roundoff * (inject_Z (Zpos m) * 2 ^ e).
Proof.
  intros Hdig. pose proof (digits2_pos_bounds m) as [Hlow _]. rewrite Hdig in Hlow.
  change (2 ^ (prec - 1))%Z with 4503599627370496%Z in Hlow.
  rewrite Zle_Qle in Hlow.
  pose proof (pow2_pos e) as Hp.
  set (P := 2 ^ e) in *. set (M := inject_Z (Zpos m)) in *. clearbody P M.
  change (inject_Z 4503599627370496) with (4503599627370496 # 1) in Hlow.
  unfold unit_roundoff.
  setoid_replace (P / 2) with ((1 # 9007199254740992) * ((4503599627370496 # 1) * P))
    by field.
  apply Qmult_le_l; [ reflexivity | ].
  apply Qmult_le_compat_r; lra.
Qed.

(** Rounding to a normal result has relative error at most the unit
    roundoff. *)
Lemma round_normal (x : Q) (m e : Z) (l : location) (m2 : positive) (e2 : Z) :
  (0 <= m)%Z -> located (x / 2 ^ e) (shr_record_of_loc m l) ->
  binary_round_aux prec emax false m e l = S754_finite false m2 e2 ->
  Zpos (digits2_pos m2) = prec ->
  let v := inject_Z (Zpos m2) * 2 ^ e2 in
  (1 - unit_roundoff) * v <= x /\ x <= (1 + unit_roundoff) * v.
Proof.
  intros Hm Hloc Hround Hdig v.
  destruct (binary_round_aux_error x m e l m2 e2 Hm Hloc Hround) as [Hlo Hhi].
  pose proof (normal_half_ulp m2 e2 Hdig) as Hulp. fold v in Hlo, Hhi, Hulp.
  set (h := 2 ^ e2 / 2) in *. set (u := unit_roundoff) in *.
  assert (E1 : (1 - u) * v == v - u * v) by ring.
  assert (E2 : (1 + u) * v == v + u * v) by ring.
  rewrite E1, E2. set (uv := u * v) in *. clearbody h uv v.
  split; lra.
Qed.

(** A product of finite positive values that rounds to a normal value. *)
Lemma SFmul_normal (mx my : positive) (ex ey : Z) :
  sf_normal (SFmul prec emax (S754_finite false mx ex) (S754_finite false my ey)) ->
  exists v,
    SF2Q (SFmul prec emax (S754_finite false mx ex) (S754_finite false my ey)) = Some v /\
    0 < v /\
    let product := (inject_Z (Zpos mx) * 2 ^ ex) * (inject_Z (Zpos my) * 2 ^ ey) in
    (1 - unit_roundoff) * v <= product /\ product <= (1 + unit_roundoff) * v.
Proof.
  cbn [SFmul xorb].
  destruct (binary_round_aux prec emax false (Zpos (mx * my)) (ex + ey) loc_Exact)
    as [ | | | [ | ] m2 e2] eqn:Hround; cbn [sf_normal]; try contradiction.
  intros Hdig. eexists. split; [ reflexivity | ]. split.
  - apply Qmult_lt_0_compat; [ reflexivity | apply pow2_pos ].
  - eapply round_normal; [ | | exact Hround | exact Hdig ]; [ lia | ].
    cbn [shr_record_of_loc]. unfold located. cbn [shr_r shr_s shr_m].
    rewrite Pos2Z.inj_mul, inject_Z_mult, pow2_add.
    field. split; apply pow2_nonzero.
Qed.

(** The location that division computes from the remainder. *)
Lemma new_location_located (m2 r q : Z) :
  (0 < m2)%Z -> (0 <= r < m2)%Z ->
  located (inject_Z q + inject_Z r / inject_Z m2)
    (shr_record_of_loc q (new_location m2 r)).
Proof.
  intros Hm2 Hr.
  assert (Hden : 0 < inject_Z m2) by (change 0 with (inject_Z 0); rewrite <- Zlt_Qlt; lia).
  set (F := inject_Z r / inject_Z m2).
  assert (HF : F * inject_Z m2 == inject_Z r) by (unfold F; field; lra).
  assert (Hcmp : forall c, (2 * r ?= m2)%Z = c ->
            match c with
            | Lt => F < 1#2
            | Eq => F == 1#2
            | Gt => (1#2) < F
            end).
  { intros c Hc. destruct c.
    - apply Z.compare_eq in Hc.
      assert (E : inject_Z m2 == 2 * inject_Z r)
        by (rewrite <- Hc, inject_Z_mult; reflexivity).
      unfold F. rewrite E. field. 
      intros Hzero. rewrite E in Hden. lra.
    - assert (Hq : inject_Z (2 * r) < inject_Z m2)
        by (rewrite <- Zlt_Qlt; apply Z.compare_lt_iff; exact Hc).
      rewrite inject_Z_mult in Hq. change (inject_Z 2) with 2 in Hq.
      unfold F. apply Qlt_shift_div_r; [ exact Hden | ]. lra.
    - assert (Hq : inject_Z m2 < inject_Z (2 * r))
        by (rewrite <- Zlt_Qlt; apply Z.compare_gt_iff; exact Hc).
      rewrite inject_Z_mult in Hq. change (inject_Z 2) with 2 in Hq.
      unfold F. apply Qlt_shift_div_l; [ exact Hden | ]. lra. }
  assert (HF1 : F < 1).
  { unfold F. apply Qlt_shift_div_r; [ exact Hden | ].
    rewrite Qmult_1_l. rewrite <- Zlt_Qlt. lia. }
  assert (HF0 : (r = 0)%Z \/ 0 < F).
  { destruct (Z.eq_dec r 0) as [-> | Hne]; [ left; reflexivity | right ].
    unfold F. apply Qlt_shift_div_l; [ exact Hden | ].
    rewrite Qmult_0_l. change 0 with (inject_Z 0). rewrite <- Zlt_Qlt. lia. }
  assert (HFz : (r = 0)%Z -> F == 0).
  { intros ->. unfold F. change (inject_Z 0) with 0. field. lra. }
  clearbody F.
  unfold new_location, new_location_even, new_location_odd.
  destruct (Z.even m2) eqn:Heven.
  - destruct (Z.eqb_spec r 0) as [Hr0 | Hr0].
    + unfold located. cbn [shr_record_of_loc shr_r shr_s shr_m]. rewrite (HFz Hr0). ring.
    + destruct HF0 as [? | HF0]; [ contradiction | ].
      pose proof (Hcmp _ eq_refl) as Hc.
      destruct (2 * r ?= m2)%Z; unfold located; cbn [shr_record_of_loc shr_r shr_s shr_m];
        set (Q0 := inject_Z q) in *; clearbody Q0; clear - HF1 HF0 Hc; lra.
  - destruct (Z.eqb_spec r 0) as [Hr0 | Hr0].
    + unfold located. cbn [shr_record_of_loc shr_r shr_s shr_m]. rewrite (HFz Hr0). ring.
    + destruct HF0 as [? | HF0]; [ contradiction | ].
      pose proof (Hcmp _ eq_refl) as Hc.
      assert (Hodd : (2 * r <> m2)%Z).
      { intros E. rewrite <- E, Z.even_mul in Heven. discriminate. }
      assert (Hfin : forall c, (2 * r ?= m2)%Z = c -> c <> Eq /\
                (match (2 * r + 1 ?= m2)%Z with Gt => Gt | _ => Lt end) = c).
      { intros c Hc'. split; [ intros ->; apply Z.compare_eq in Hc'; contradiction | ].
        destruct (Z.compare_spec (2 * r + 1) m2), (Z.compare_spec (2 * r) m2);
          subst c; try reflexivity; lia. }
      destruct (Hfin _ eq_refl) as [Hne ->].
      destruct (2 * r ?= m2)%Z; try contradiction;
        unfold located; cbn [shr_record_of_loc shr_r shr_s shr_m];
        set (Q0 := inject_Z q) in *; clearbody Q0; clear - HF1 HF0 Hc; lra.
Qed.

(** A quotient of finite positive values that rounds to a normal value. *)
Lemma SFdiv_normal (mx my : positive) (ex ey : Z) :
  sf_normal (SFdiv prec emax (S754_finite false mx ex) (S754_finite false my ey)) ->
  exists v,
    SF2Q (SFdiv prec emax (S754_finite false mx ex) (S754_finite false my ey)) = Some v /\
    0 < v /\
    let quotient := (inject_Z (Zpos mx) * 2 ^ ex) / (inject_Z (Zpos my) * 2 ^ ey) in
    (1 - unit_roundoff) * v <= quotient /\ quotient <= (1 + unit_roundoff) * v.
Proof.
  cbn [SFdiv xorb]. unfold SFdiv_core_binary.
  set (e' := Z.min _ (ex - ey)).
  set (s := (ex - ey - e')%Z).
  assert (Hs : (0 <= s)%Z) by (unfold s, e'; lia).
  set (m' := match s with Zpos _ => Z.shiftl (Zpos mx) s | Z0 => Zpos mx | Zneg _ => 0%Z end).
  assert (Hm' : m' = (Zpos mx * 2 ^ s)%Z).
  { unfold m'. destruct s as [ | p | p ]; try lia.
    apply Z.shiftl_mul_pow2. lia. }
  pose proof (Z_div_mod m' (Zpos my) eq_refl) as Hdiv.
  destruct (Z.div_eucl m' (Zpos my)) as [q r]. destruct Hdiv as [Heq Hr].
  assert (Hq : (0 <= q)%Z) by nia.
  destruct (binary_round_aux prec emax false q e' (new_location (Zpos my) r))
    as [ | | | [ | ] m2 e2] eqn:Hround; cbn [sf_normal]; try contradiction.
  intros Hdig. eexists. split; [ reflexivity | ]. split.
  - apply Qmult_lt_0_compat; [ reflexivity | apply pow2_pos ].
  - eapply round_normal; [ exact Hq | | exact Hround | exact Hdig ].
    eapply located_ext; [ | apply (new_location_located (Zpos my) r q); lia ].
    assert (Hpow : 2 ^ ex == 2 ^ s * 2 ^ ey * 2 ^ e').
    { rewrite <- !pow2_add. replace (s + ey + e')%Z with ex by (unfold s; lia). reflexivity. }
    assert (Hinj : inject_Z (Zpos my) * inject_Z q + inject_Z r ==
                   inject_Z (Zpos mx) * 2 ^ s).
    { rewrite <- inject_Z_mult, <- inject_Z_plus, <- Heq, Hm', inject_Z_mult.
      rewrite (inject_Z_pow2 s Hs). reflexivity. }
    assert (Hmy : 0 < inject_Z (Zpos my)) by reflexivity.
    pose proof (pow2_pos ey). pose proof (pow2_pos e'). pose proof (pow2_pos s).
    rewrite Hpow.
    set (A := inject_Z (Zpos mx)) in *. set (B := inject_Z (Zpos my)) in *.
    set (Pq := inject_Z q) in *. set (Pr := inject_Z r) in *.
    set (S2 := 2 ^ s) in *. set (Y2 := 2 ^ ey) in *. set (E2 := 2 ^ e') in *.
    clearbody A B Pq Pr S2 Y2 E2.
    setoid_replace (Pq + Pr / B) with ((B * Pq + Pr) / B) by (field; lra).
    rewrite Hinj. field. repeat split; lra.
Qed.

(** Composition of the six rounding errors. *)
Lemma Qle_mul (a b c d : Q) : 0 <= a -> a <= b -> 0 <= c -> c <= d -> a * c <= b * d.
Proof. intros. apply Qmult_le_compat_nonneg; split; assumption. Qed.

Lemma Qle_cancel_r (a b c : Q) : 0 < c -> a * c <= b * c -> a <= b.
Proof. intros Hc H. exact (Qmult_lt_0_le_reg_r a b c Hc H). Qed.

Lemma six_roundings (lo hi D E R BF BFR M X QD Y : Q) :
  0 < lo -> 0 < hi ->
  0 < D -> 0 < E -> 0 < R -> 0 < BF -> 0 < BFR -> 0 < M -> 0 < X -> 0 < QD -> 0 < Y ->
  lo * BFR <= BF * R -> BF * R <= hi * BFR ->
  lo * M <= BFR / E -> BFR / E <= hi * M ->
  lo * X <= D / M -> D / M <= hi * X ->
  lo * QD <= BF / D -> BF / D <= hi * QD ->
  lo * Y <= QD * R -> QD * R <= hi * Y ->
  (lo * lo * lo) * (X * Y) <= (hi * hi) * E /\
  (lo * lo) * E <= (hi * hi * hi) * (X * Y).
Proof.
  intros Hlo Hhi HD HE HR HBF HBFR HM HX HQD HY
    H2l H2h H3l H3h H4l H4h H5l H5h H6l H6h.
  assert (H3l' : lo * M * E <= BFR).
  { apply (Qle_cancel_r _ _ (/ E)); [ apply Qinv_lt_0_compat; exact HE | ].
    setoid_replace (lo * M * E * / E) with (lo * M) by (field; lra).
    exact H3l. }
  assert (H3h' : BFR <= hi * M * E).
  { apply (Qle_cancel_r _ _ (/ E)); [ apply Qinv_lt_0_compat; exact HE | ].
    setoid_replace (hi * M * E * / E) with (hi * M) by (field; lra).
    exact H3h. }
  assert (H4l' : lo * X * M <= D).
  { apply (Qle_cancel_r _ _ (/ M)); [ apply Qinv_lt_0_compat; exact HM | ].
    setoid_replace (lo * X * M * / M) with (lo * X) by (field; lra).
    exact H4l. }
  assert (H4h' : D <= hi * X * M).
  { apply (Qle_cancel_r _ _ (/ M)); [ apply Qinv_lt_0_compat; exact HM | ].
    setoid_replace (hi * X * M * / M) with (hi * X) by (field; lra).
    exact H4h. }
  assert (H5l' : lo * QD * D <= BF).
  { apply (Qle_cancel_r _ _ (/ D)); [ apply Qinv_lt_0_compat; exact HD | ].
    setoid_replace (lo * QD * D * / D) with (lo * QD) by (field; lra).
    exact H5l. }
  assert (H5h' : BF <= hi * QD * D).
  { apply (Qle_cancel_r _ _ (/ D)); [ apply Qinv_lt_0_compat; exact HD | ].
    setoid_replace (hi * QD * D * / D) with (hi * QD) by (field; lra).
    exact H5h. }
  assert (Pos : forall a b, 0 < a -> 0 < b -> 0 < a * b)
    by (intros; apply Qmult_lt_0_compat; assumption).
  assert (Nn : forall a, 0 < a -> 0 <= a) by (intros; apply Qlt_le_weak; assumption).
  split.
  - (* upper *)
    assert (S1 : (lo * X * M) * (lo * Y) <= D * (QD * R))
      by (apply Qle_mul; auto 6).
    assert (S2 : ((lo * X * M) * (lo * Y)) * (lo * QD * D) <= (D * (QD * R)) * BF)
      by (apply Qle_mul; auto 8).
    assert (T1 : (lo * lo * lo) * (X * Y) * M <= R * BF).
    { apply (Qle_cancel_r _ _ (QD * D)); [ auto | ].
      setoid_replace (lo * lo * lo * (X * Y) * M * (QD * D))
        with (lo * X * M * (lo * Y) * (lo * QD * D)) by ring.
      setoid_replace (R * BF * (QD * D)) with (D * (QD * R) * BF) by ring.
      exact S2. }
    assert (T2 : R * BF <= hi * hi * E * M).
    { apply Qle_trans with (hi * BFR); [ rewrite (Qmult_comm R BF); exact H2h | ].
      setoid_replace (hi * hi * E * M) with (hi * (hi * M * E)) by ring.
      apply Qmult_le_l; [ exact Hhi | exact H3h' ]. }
    apply (Qle_cancel_r _ _ M); [ exact HM | ].
    eapply Qle_trans; [ exact T1 | exact T2 ].
  - (* lower *)
    assert (S1 : D * (QD * R) <= (hi * X * M) * (hi * Y))
      by (apply Qle_mul; auto 6).
    assert (S2 : (D * (QD * R)) * BF <= ((hi * X * M) * (hi * Y)) * (hi * QD * D))
      by (apply Qle_mul; auto 8).
    assert (T1 : R * BF <= (hi * hi * hi) * (X * Y) * M).
    { apply (Qle_cancel_r _ _ (QD * D)); [ auto | ].
      setoid_replace (hi * hi * hi * (X * Y) * M * (QD * D))
        with (hi * X * M * (hi * Y) * (hi * QD * D)) by ring.
      setoid_replace (R * BF * (QD * D)) with (D * (QD * R) * BF) by ring.
      exact S2. }
    assert (T2 : lo * lo * E * M <= R * BF).
    { apply Qle_trans with (lo * BFR); [ | rewrite (Qmult_comm R BF); exact H2l ].
      setoid_replace (lo * lo * E * M) with (lo * (lo * M * E)) by ring.
      apply Qmult_le_l; [ exact Hlo | exact H3l' ]. }
    apply (Qle_cancel_r _ _ M); [ exact HM | ].
    eapply Qle_trans; [ exact T2 | exact T1 ].
Qed.

(** From the classification of a Number to its decomposition. *)
Lemma normal_decomposed (x : float) : normal_number x -> sf_normal (Prim2SF x).
Proof.
  unfold normal_number. rewrite FloatAxioms.classify_spec.
  unfold SF64classify, SFclassify.
  destruct (Prim2SF x) as [[ | ] | [ | ] | | [ | ] m e]; try discriminate.
  - destruct (Z.eqb (Zpos (digits2_pos m)) prec); discriminate.
  - destruct (Z.eqb_spec (Zpos (digits2_pos m)) prec) as [Hdig | _];
      [ intros _; exact Hdig | discriminate ].
Qed.

Lemma positive_decomposed (x : float) : positive_number x -> sf_positive (Prim2SF x).
Proof.
  unfold positive_number. rewrite FloatAxioms.ltb_spec, Prim2SF_0.
  destruct (Prim2SF x) as [[ | ] | [ | ] | | [ | ] m e];
    unfold SFltb; simpl; try discriminate; intros _; exact I.
Qed.

Lemma normal_positive (x : spec_float) : sf_normal x -> sf_positive x.
Proof.
  destruct x as [s | s | | [ | ] m e]; simpl; try contradiction. intros _; exact I.
Qed.

Lemma mantissa_value_positive (m : positive) (e : Z) : 0 < inject_Z (Zpos m) * 2 ^ e.
Proof. apply Qmult_lt_0_compat; [ reflexivity | apply pow2_pos ]. Qed.

(** A product of positive Numbers that is a normal Number: the operands are
    finite, and the product is the exact product up to a relative error of
    [2 ^ -53]. *)
Lemma mul_rounds (x y : float) :
  sf_positive (Prim2SF x) -> sf_positive (Prim2SF y) -> normal_number (x * y)%float ->
  exists vx vy v : Q,
    real_value x = Some vx /\ real_value y = Some vy /\
    real_value (x * y)%float = Some v /\
    0 < vx /\ 0 < vy /\ 0 < v /\
    (1 - unit_roundoff) * v <= vx * vy /\ vx * vy <= (1 + unit_roundoff) * v.
Proof.
  intros Hx Hy Hn. apply normal_decomposed in Hn. unfold real_value.
  rewrite FloatAxioms.mul_spec in *. unfold SF64mul in *.
  destruct (Prim2SF x) as [sx | [ | ] | | [ | ] mx ex]; try contradiction;
    destruct (Prim2SF y) as [sy | [ | ] | | [ | ] my ey]; try contradiction;
    try (simpl in Hn; contradiction).
  destruct (SFmul_normal mx my ex ey Hn) as (v & Hv & Hpos & Hlo & Hhi).
  exists (inject_Z (Zpos mx) * 2 ^ ex), (inject_Z (Zpos my) * 2 ^ ey), v.
  repeat split; try reflexivity; try assumption; apply mantissa_value_positive.
Qed.

(** The same for a quotient. *)
Lemma div_rounds (x y : float) :
  sf_positive (Prim2SF x) -> sf_positive (Prim2SF y) -> normal_number (x / y)%float ->
  exists vx vy v : Q,
    real_value x = Some vx /\ real_value y = Some vy /\
    real_value (x / y)%float = Some v /\
    0 < vx /\ 0 < vy /\ 0 < v /\
    (1 - unit_roundoff) * v <= vx / vy /\ vx / vy <= (1 + unit_roundoff) * v.
Proof.
  intros Hx Hy Hn. apply normal_decomposed in Hn. unfold real_value.
  rewrite FloatAxioms.div_spec in *. unfold SF64div in *.
  destruct (Prim2SF x) as [sx | [ | ] | | [ | ] mx ex]; try contradiction;
    destruct (Prim2SF y) as [sy | [ | ] | | [ | ] my ey]; try contradiction;
    try (simpl in Hn; contradiction).
  destruct (SFdiv_normal mx my ex ey Hn) as (v & Hv & Hpos & Hlo & Hhi).
  exists (inject_Z (Zpos mx) * 2 ^ ex), (inject_Z (Zpos my) * 2 ^ ey), v.
  repeat split; try reflexivity; try assumption; apply mantissa_value_positive.
Qed.

Lemma normal_number_positive (x : float) : normal_number x -> sf_positive (Prim2SF x).
Proof. intros Hn. apply normal_positive, normal_decomposed, Hn. Qed.

Lemma same_real_value (x : float) (v w : Q) :
  real_value x = Some v -> real_value x = Some w -> v = w.
Proof. intros Hv Hw. rewrite Hv in Hw. injection Hw as Hw. exact Hw. Qed.

(** Three roundings one way and two the other stay within [6 * 2 ^ -53]. *)
Lemma roundings_within_bound :
  (1 + unit_roundoff) * (1 + unit_roundoff) <=
    (1 + relative_error_bound) *
      ((1 - unit_roundoff) * (1 - unit_roundoff) * (1 - unit_roundoff)) /\
  (1 - relative_error_bound) *
      ((1 + unit_roundoff) * (1 + unit_roundoff) * (1 + unit_roundoff)) <=
    (1 - unit_roundoff) * (1 - unit_roundoff).
Proof. split; vm_compute; discriminate. Qed.

(** From bounds that carry the rounding factors to bounds within
    [relative_error_bound], for the product and for the quotient. *)
Lemma within_bound (E X Y : Q) :
  0 < E -> 0 < Y ->
  ((1 - unit_roundoff) * (1 - unit_roundoff) * (1 - unit_roundoff)) * (X * Y) <=
    ((1 + unit_roundoff) * (1 + unit_roundoff)) * E ->
  ((1 - unit_roundoff) * (1 - unit_roundoff)) * E <=
    ((1 + unit_roundoff) * (1 + unit_roundoff) * (1 + unit_roundoff)) * (X * Y) ->
  ((1 - relative_error_bound) * E <= X * Y /\
   X * Y <= (1 + relative_error_bound) * E) /\
  ((1 - relative_error_bound) * (E / Y) <= X /\
   X <= (1 + relative_error_bound) * (E / Y)).
Proof.
  intros HE HY Hup Hdown.
  destruct roundings_within_bound as [Kup Kdown].
  set (lo3 := (1 - unit_roundoff) * (1 - unit_roundoff) * (1 - unit_roundoff)) in *.
  set (hi2 := (1 + unit_roundoff) * (1 + unit_roundoff)) in *.
  set (lo2 := (1 - unit_roundoff) * (1 - unit_roundoff)) in *.
  set (hi3 := (1 + unit_roundoff) * (1 + unit_roundoff) * (1 + unit_roundoff)) in *.
  assert (Hlo3 : 0 < lo3) by reflexivity.
  assert (Hhi3 : 0 < hi3) by reflexivity.
  assert (Hprod : (1 - relative_error_bound) * E <= X * Y /\
                  X * Y <= (1 + relative_error_bound) * E).
  { split.
    - apply (Qle_cancel_r _ _ hi3); [ exact Hhi3 | ].
      apply Qle_trans with (lo2 * E).
      + setoid_replace ((1 - relative_error_bound) * E * hi3)
          with (((1 - relative_error_bound) * hi3) * E) by ring.
        apply Qmult_le_compat_r; [ exact Kdown | apply Qlt_le_weak; exact HE ].
      + setoid_replace (X * Y * hi3) with (hi3 * (X * Y)) by ring. exact Hdown.
    - apply (Qle_cancel_r _ _ lo3); [ exact Hlo3 | ].
      apply Qle_trans with (hi2 * E).
      + setoid_replace (X * Y * lo3) with (lo3 * (X * Y)) by ring. exact Hup.
      + setoid_replace ((1 + relative_error_bound) * E * lo3)
          with (((1 + relative_error_bound) * lo3) * E) by ring.
        apply Qmult_le_compat_r; [ exact Kup | apply Qlt_le_weak; exact HE ]. }
  split; [ exact Hprod | ].
  destruct Hprod as [Hl Hh].
  assert (HY0 : ~ Y == 0) by (intros E0; rewrite E0 in HY; discriminate HY).
  split; apply (Qle_cancel_r _ _ Y); try exact HY.
  - setoid_replace ((1 - relative_error_bound) * (E / Y) * Y)
      with ((1 - relative_error_bound) * E) by (field; exact HY0).
    exact Hl.
  - setoid_replace ((1 + relative_error_bound) * (E / Y) * Y)
      with ((1 + relative_error_bound) * E) by (field; exact HY0).
    exact Hh.
Qed.

End Rounding.

(** C10, amended.  On every object whose five fields are [> 0] and on
    which none of the six operations of [calcExitPupil()] and
    [calcFocalRatio()] overflows or underflows (each gives a positive
    normal Number), the two methods return Numbers [x] and [y] whose real
    values [vx] and [vy], with the real value [ve] of [epFocalLength],
    satisfy the identity up to a relative error of [6 * 2 ^ -53]:
    [vx * vy] lies between [(1 - 6 * 2 ^ -53) * ve] and
    [(1 + 6 * 2 ^ -53) * ve], and [vx] between [(1 - 6 * 2 ^ -53) * (ve / vy)]
    and [(1 + 6 * 2 ^ -53) * (ve / vy)].  The products and quotients here
    are those of the real numbers, not the rounded ones of the program. *)
Theorem exit_pupil_times_focal_ratio_up_to_rounding (t : TelescopeCalc float) :
  valid t -> rounds_normally t ->
  exists (x y : float) (vx vy ve : Q),
    calcExitPupil t = (Normal x, t) /\
    calcFocalRatio t = (Normal y, t) /\
    real_value x = Some vx /\
    real_value y = Some vy /\
    real_value (_epFocalLength t) = Some ve /\
    (0 < vy)%Q /\
    ((1 - relative_error_bound) * ve <= vx * vy)%Q /\
    (vx * vy <= (1 + relative_error_bound) * ve)%Q /\
    ((1 - relative_error_bound) * (ve / vy) <= vx)%Q /\
    (vx <= (1 + relative_error_bound) * (ve / vy))%Q.
Proof.
  intros Hvalid Hnormal.
  pose proof (positive_decomposed _ (Hvalid telDiameter)) as Hd.
  pose proof (positive_decomposed _ (Hvalid telFocalLength)) as Hf.
  pose proof (positive_decomposed _ (Hvalid epFocalLength)) as He.
  pose proof (positive_decomposed _ (Hvalid barlowFactor)) as Hb.
  pose proof (positive_decomposed _ (Hvalid focalReducerFactor)) as Hr.
  destruct t as [d f e b r].
  unfold rounds_normally in Hnormal.
  cbn [backing _telDiameter _telFocalLength _epFocalLength _barlowFactor
       _focalReducerFactor] in *.
  destruct Hnormal as (Nbf & Nbfr & Nm & Nx & Nq & Ny).
  exists (d / (b * f * r / e)), (b * f / d * r).
  destruct (mul_rounds _ _ Hb Hf Nbf)
    as (vb & vf & vbf & _ & _ & Vbf & _ & _ & Pbf & _ & _).
  destruct (mul_rounds _ _ (normal_number_positive _ Nbf) Hr Nbfr)
    as (vbf2 & vr & vbfr & Vbf2 & Vr & Vbfr & _ & Pr & Pbfr & L2 & H2).
  destruct (div_rounds _ _ (normal_number_positive _ Nbfr) He Nm)
    as (vbfr3 & ve & vm & Vbfr3 & Ve & Vm & _ & Pe & Pm & L3 & H3).
  destruct (div_rounds _ _ Hd (normal_number_positive _ Nm) Nx)
    as (vd & vm4 & vx & Vd & Vm4 & Vx & Pd & _ & Px & L4 & H4).
  destruct (div_rounds _ _ (normal_number_positive _ Nbf) Hd Nq)
    as (vbf5 & vd5 & vq & Vbf5 & Vd5 & Vq & _ & _ & Pq & L5 & H5).
  destruct (mul_rounds _ _ (normal_number_positive _ Nq) Hr Ny)
    as (vq6 & vr6 & vy & Vq6 & Vr6 & Vy & _ & _ & Py & L6 & H6).
  pose proof (same_real_value _ _ _ Vbf Vbf2) as <-.
  pose proof (same_real_value _ _ _ Vbf Vbf5) as <-.
  pose proof (same_real_value _ _ _ Vbfr Vbfr3) as <-.
  pose proof (same_real_value _ _ _ Vm Vm4) as <-.
  pose proof (same_real_value _ _ _ Vd Vd5) as <-.
  pose proof (same_real_value _ _ _ Vq Vq6) as <-.
  pose proof (same_real_value _ _ _ Vr Vr6) as <-.
  exists vx, vy, ve.
  assert (Hlo : (0 < 1 - unit_roundoff)%Q) by reflexivity.
  assert (Hhi : (0 < 1 + unit_roundoff)%Q) by reflexivity.
  destruct (six_roundings _ _ _ _ _ _ _ _ _ _ _ Hlo Hhi Pd Pe Pr Pbf Pbfr Pm Px Pq Py
              L2 H2 L3 H3 L4 H4 L5 H5 L6 H6) as [Hup Hdown].
  destruct (within_bound _ _ _ Pe Py Hup Hdown) as [[Hp1 Hp2] [Hq1 Hq2]].
  split; [ reflexivity | ]. split; [ reflexivity | ].
  repeat split; assumption.
Qed.

Lemma exit_pupil_times_focal_ratio_up_to_rounding_witness :
  exists (x y : float) (vx vy ve : Q),
    calcExitPupil (mkTelescopeCalc 200 1000 6 1 1) =
      (Normal x, mkTelescopeCalc 200 1000 6 1 1) /\
    calcFocalRatio (mkTelescopeCalc 200 1000 6 1 1) =
      (Normal y, mkTelescopeCalc 200 1000 6 1 1) /\
    real_value x = Some vx /\
    real_value y = Some vy /\
    real_value 6 = Some ve /\
    (0 < vy)%Q /\
    ((1 - relative_error_bound) * ve <= vx * vy)%Q /\
    (vx * vy <= (1 + relative_error_bound) * ve)%Q /\
    ((1 - relative_error_bound) * (ve / vy) <= vx)%Q /\
    (vx <= (1 + relative_error_bound) * (ve / vy))%Q.
Proof.
  apply (@exit_pupil_times_focal_ratio_up_to_rounding (mkTelescopeCalc 200 1000 6 1 1)).
  - intros p; destruct p; reflexivity.
  - repeat split; reflexivity.
Defined.

(** The condition on the six operations is needed.  With
    [barlowFactor = 2 ^ 600], [telFocalLength = 2 ^ 400] and the other
    three fields [2 ^ 100], all finite and [> 0], [b * f * r] overflows to
    [Infinity], so the magnification is [Infinity] and [calcExitPupil()]
    returns [0], while [calcFocalRatio()] returns [2 ^ 1000]: the product
    of the two real values is [0], not within any relative error of
    [2 ^ 100]. *)
Lemma overflow_breaks_the_bound :
  exists (t : TelescopeCalc float) (y : float) (vy ve : Q),
    valid t /\ all_finite t /\
    calcExitPupil t = (Normal 0, t) /\
    calcFocalRatio t = (Normal y, t) /\
    real_value 0 = Some 0%Q /\
    real_value y = Some vy /\
    real_value (_epFocalLength t) = Some ve /\
    ~ ((1 - relative_error_bound) * ve <= 0 * vy)%Q.
Proof.
  exists (mkTelescopeCalc 0x1p100 0x1p400 0x1p100 0x1p600 0x1p100).
  do 3 eexists.
  split; [ intros p; destruct p; reflexivity | ].
  split; [ intros p; destruct p; reflexivity | ].
  split; [ reflexivity | ]. split; [ reflexivity | ].
  split; [ reflexivity | ]. split; [ reflexivity | ]. split; [ reflexivity | ].
  intros Hle. vm_compute in Hle. apply Hle. reflexivity.
Qed.

(** * Further properties of the class *)

(** ** Sequences of assignments *)

Lemma setter_result (p : property) (v : float) (t : TelescopeCalc float) :
  snd (setter p v t) = if (v <=? 0) then t else replaced p v t.
Proof.
  destruct p; simpl; unfold_setters; destruct (v <=? 0); reflexivity.
Qed.

Lemma backing_replaced (p q : property) (v : float) (t : TelescopeCalc float) :
  backing p (replaced q v t) = if property_eqb q p then v else backing p t.
Proof. destruct p, q; reflexivity. Qed.

(** X1.  After any sequence of assignments, each caught if it throws, a
    property holds the last value of the sequence that its setter accepted
    (a value that is not [<= 0]), or what it held before when there is no
    such value: rejected assignments and assignments to other properties
    leave it alone. *)
Theorem assignments_last_accepted_wins
    (p : property) (calls : list (property * float)) (t : TelescopeCalc float) :
  backing p (assignments calls t) = default (backing p t) (last_accepted p calls).
Proof.
  revert t. induction calls as [ | [q v] rest IH]; intros t.
  - reflexivity.
  - cbn [assignments last_accepted]. rewrite IH.
    destruct (last_accepted p rest) as [w | ]; [ reflexivity | ].
    cbn [default]. rewrite setter_result.
    destruct (v <=? 0); simpl.
    + rewrite andb_false_r. reflexivity.
    + rewrite andb_true_r, backing_replaced.
      destruct (property_eqb q p); reflexivity.
Qed.

Lemma property_eqb_eq (p q : property) : property_eqb p q = true <-> p = q.
Proof. destruct p, q; simpl; split; congruence. Qed.

(** X2.  Assignments to two different properties can be made in either
    order: the resulting object is the same, whether each of the two is
    accepted or rejected. *)
Theorem assignments_to_different_properties_commute
    (p q : property) (v w : float) (t : TelescopeCalc float) :
  p <> q ->
  assignments [(p, v); (q, w)] t = assignments [(q, w); (p, v)] t.
Proof.
  intros Hpq. cbn [assignments]. rewrite !setter_result.
  destruct (v <=? 0), (w <=? 0); try reflexivity.
  destruct t as [d f e b r].
  destruct p, q; try reflexivity; contradiction Hpq; reflexivity.
Qed.

Lemma assignments_to_different_properties_commute_witness :
  assignments [(telDiameter, 150); (barlowFactor, -2)] (mkTelescopeCalc 200 1000 10 1 1) =
  assignments [(barlowFactor, -2); (telDiameter, 150)] (mkTelescopeCalc 200 1000 10 1 1).
Proof.
  apply assignments_to_different_properties_commute. discriminate.
Defined.

(** X3.  The constructor and the setters agree on what they accept: the
    object that [new TelescopeCalc(d, f, e, b, r)] returns is also what
    five assignments of the same values, defaults filled in, make of any
    other object.  So an object carries nothing but its five fields, and no
    object can be constructed that the setters could not have produced. *)
Theorem construction_equals_five_assignments
    (td tf ef bf rf : option float) (t t0 : TelescopeCalc float) :
  constructor td tf ef bf rf = Normal t ->
  exists d f e : float,
    td = Some d /\ tf = Some f /\ ef = Some e /\
    assignments [(telDiameter, d); (telFocalLength, f); (epFocalLength, e);
                 (barlowFactor, default 1 bf); (focalReducerFactor, default 1 rf)] t0 = t.
Proof.
  unfold constructor. binary64_ops.
  destruct td as [d | ], tf as [f | ], ef as [e | ]; try discriminate.
  destruct (d <=? 0) eqn:Ed; [ discriminate | ].
  destruct (f <=? 0) eqn:Ef; [ discriminate | ].
  destruct (e <=? 0) eqn:Ee; [ discriminate | ].
  destruct (default 1 bf <=? 0) eqn:Eb; [ discriminate | ].
  destruct (default 1 rf <=? 0) eqn:Er; [ discriminate | ].
  intros [= <-]. exists d, f, e. repeat split.
  cbn [assignments]. rewrite !setter_result, Ed.
  cbn [replaced with_telDiameter _telDiameter]. rewrite Ef, Ee, Eb, Er. reflexivity.
Qed.

Lemma construction_equals_five_assignments_witness :
  exists d f e : float,
    Some 200 = Some d /\ Some 1000 = Some f /\ Some 10 = Some e /\
    assignments [(telDiameter, d); (telFocalLength, f); (epFocalLength, e);
                 (barlowFactor, default 1 (Some 2)); (focalReducerFactor, default 1 None)]
      (mkTelescopeCalc 80 400 25 1 0.5) = mkTelescopeCalc 200 1000 10 2 1.
Proof.
  apply (@construction_equals_five_assignments
           (Some 200) (Some 1000) (Some 10) (Some 2) None).
  reflexivity.
Defined.

(** ** What a computation reads *)

(** X4.  Replacing a field that does not occur in the formula of a
    computation does not change its result: the magnification does not
    depend on the aperture, the focal ratio not on the eyepiece, and the two
    magnification limits and the Dawes limit on nothing but the aperture. *)
Theorem computation_ignores_fields_it_does_not_read
    (c : computation) (p : property) (v : float) (t : TelescopeCalc float) :
  reads c p = false ->
  fst (calc c (replaced p v t)) = fst (calc c t).
Proof.
  destruct c, p; simpl; intros Hreads; try discriminate Hreads; reflexivity.
Qed.

Lemma computation_ignores_fields_it_does_not_read_witness :
  fst (calc Magnification (replaced telDiameter 80 (mkTelescopeCalc 200 1000 10 1 1))) =
  fst (calc Magnification (mkTelescopeCalc 200 1000 10 1 1)).
Proof.
  apply computation_ignores_fields_it_does_not_read. reflexivity.
Defined.

(** ** NaN *)

Lemma Prim2SF_nan : Prim2SF nan = S754_nan.
Proof. reflexivity. Qed.

Lemma nan_decomposed (x : float) : Prim2SF x = S754_nan -> x = nan.
Proof. intros Hx. apply Prim2SF_inj. rewrite Hx. reflexivity. Qed.

Lemma mul_nan_l (y : float) : nan * y = nan.
Proof.
  apply nan_decomposed. rewrite FloatAxioms.mul_spec, Prim2SF_nan. reflexivity.
Qed.

Lemma mul_nan_r (x : float) : x * nan = nan.
Proof.
  apply nan_decomposed. rewrite FloatAxioms.mul_spec, Prim2SF_nan.
  destruct (Prim2SF x); reflexivity.
Qed.

Lemma div_nan_l (y : float) : nan / y = nan.
Proof.
  apply nan_decomposed. rewrite FloatAxioms.div_spec, Prim2SF_nan. reflexivity.
Qed.

Lemma div_nan_r (x : float) : x / nan = nan.
Proof.
  apply nan_decomposed. rewrite FloatAxioms.div_spec, Prim2SF_nan.
  destruct (Prim2SF x); reflexivity.
Qed.

(** X5.  NaN passes the range check of every setter, since [NaN <= 0] is
    false; and once a field is NaN, every computation whose formula reads
    that field returns NaN. *)
Theorem NaN_is_accepted_and_spreads
    (p : property) (t : TelescopeCalc float) :
  setter p nan t = (Normal tt, replaced p nan t) /\
  (forall c : computation, reads c p = true ->
     fst (calc c (replaced p nan t)) = Normal nan).
Proof.
  split.
  - destruct p; reflexivity.
  - intros c Hreads.
    destruct c, p; try discriminate Hreads; simpl; binary64_ops;
      unfold calcMagnification, calcLowerMagnificationLimit,
        calcUpperMagnificationLimit, calcFocalRatio, calcExitPupil,
        calcDawesLimit, calcMagnification, bind, read, ret; simpl; binary64_ops;
      repeat first [ rewrite mul_nan_l | rewrite mul_nan_r
                   | rewrite div_nan_l | rewrite div_nan_r ];
      reflexivity.
Qed.

Lemma NaN_is_accepted_and_spreads_witness :
  fst (calc ExitPupil (replaced epFocalLength nan (mkTelescopeCalc 200 1000 10 1 1))) =
    Normal nan.
Proof.
  apply (proj2 (NaN_is_accepted_and_spreads epFocalLength (mkTelescopeCalc 200 1000 10 1 1))).
  reflexivity.
Defined.

(** * Properties of the page script *)

Section PageProperties.

Context {browser : Browser}.

Local Open Scope string_scope.
Local Open Scope float_scope.

(** ** Elements after an update *)

Ltac case_id id s := destruct (String.eqb_spec id s) as [-> | ?].

Lemma elements_update (id id' : string) (change : Element -> Element) (d : Document) :
  elements (update id change d) id' =
    if String.eqb id' id then change (elements d id') else elements d id'.
Proof. reflexivity. Qed.

Lemma is_container_cases (id : string) :
  is_container id =
    (String.eqb id "magResult" || (String.eqb id "lowerMagLimit" ||
     (String.eqb id "upperMagLimit" || (String.eqb id "fRatioResult" ||
      (String.eqb id "dawesLimitRes" || false))))).
Proof. reflexivity. Qed.

Lemma show_message_elements (message : string) (d : Document) (id : string) :
  elements (show_message message d) id =
    if is_container id
    then set_fontStyle "italic" (set_textContent message (elements d id))
    else elements d id.
Proof.
  rewrite is_container_cases.
  unfold show_message, resultContainers. cbn [store fold_left snd String.eqb Ascii.eqb Bool.eqb].
  rewrite !elements_update.
  case_id id "magResult"; [ reflexivity | ].
  case_id id "lowerMagLimit"; [ reflexivity | ].
  case_id id "upperMagLimit"; [ reflexivity | ].
  case_id id "fRatioResult"; [ reflexivity | ].
  case_id id "dawesLimitRes"; reflexivity.
Qed.

Lemma display_elements (r : float * float * float * float * float)
    (d : Document) (id : string) :
  elements (display r d) id =
    match result_text r id with
    | Some text => set_textContent text (elements d id)
    | None => elements d id
    end.
Proof.
  destruct r as [[[[m lo] up] fn] dl].
  unfold display, result_text. rewrite !elements_update.
  case_id id "magResult"; [ reflexivity | ].
  case_id id "lowerMagLimit"; [ reflexivity | ].
  case_id id "upperMagLimit"; [ reflexivity | ].
  case_id id "fRatioResult"; [ reflexivity | ].
  case_id id "dawesLimitRes"; reflexivity.
Qed.

(** ** The data read from the form *)

Lemma inputData_entries (d : Document) :
  inputData d =
    [("telDiameter", number_in d "telDiameter");
     ("telFocalLength", number_in d "telFocalLength");
     ("epFocalLength", number_in d "epFocalLength");
     ("barlowFactor",
       if hidden (getElementById d "barlowPower") then 1
       else number_in d "barlowPower");
     ("focalReducerFactor",
       if hidden (getElementById d "fReducerFactor") then 1
       else number_in d "fReducerFactor")].
Proof.
  unfold inputData.
  destruct (hidden (getElementById d "barlowPower")),
    (hidden (getElementById d "fReducerFactor")); reflexivity.
Qed.

(** What [inputData] depends on: the five boxes, and whether the optional
    two are hidden. *)
Lemma inputData_same (d d' : Document) :
  (forall id, value (elements d' id) = value (elements d id)) ->
  (forall id, hidden (elements d' id) = hidden (elements d id)) ->
  inputData d' = inputData d.
Proof.
  intros Hvalue Hhidden.
  rewrite !inputData_entries. unfold number_in, getElementById.
  rewrite !Hvalue, !Hhidden. reflexivity.
Qed.

(** ** One run of calcTelescopeCharacteristics *)

Lemma restyled_inputData (d : Document) :
  inputData (update_all is_resultDisplay (set_fontStyle "") d) = inputData d.
Proof.
  apply inputData_same; intros id; simpl;
    destruct (is_resultDisplay (elements d id)); reflexivity.
Qed.

(** A run clears the font style of the displays, then either writes the
    results or handles the exception. *)
Lemma calc_structure (d : Document) :
  calcTelescopeCharacteristics d =
    match calculate (inputData d) with
    | inr r => display r (update_all is_resultDisplay (set_fontStyle "") d)
    | inl e => catch_block e (update_all is_resultDisplay (set_fontStyle "") d)
    end.
Proof.
  unfold calcTelescopeCharacteristics, try_block. rewrite restyled_inputData.
  destruct (calculate (inputData d)); reflexivity.
Qed.

Lemma check_numeric_finds_NaN (entries : dictionary float) (key : string) (v : float) :
  In (key, v) entries -> PrimFloat.is_nan v = true ->
  exists key', check_numeric entries =
                 Some (SyntaxError ("Textbox input for " ++ key' ++ " is not a number.")).
Proof.
  induction entries as [ | [k w] rest IH]; intros Hin Hnan; [ contradiction | ].
  simpl. destruct (PrimFloat.is_nan w) eqn:Hw; [ eexists; reflexivity | ].
  destruct Hin as [[= -> ->] | Hin]; [ congruence | ].
  apply IH; assumption.
Qed.

Lemma check_numeric_passes (entries : dictionary float) :
  (forall key v, In (key, v) entries -> not_nan v) -> check_numeric entries = None.
Proof.
  induction entries as [ | [k w] rest IH]; intros Hall; [ reflexivity | ].
  simpl. rewrite (Hall k w (or_introl eq_refl)).
  apply IH. intros key v Hin. apply (Hall key v). right. exact Hin.
Qed.

Lemma constructor_rejects (d f e b r : float) :
  (d <=? 0) = true \/ (f <=? 0) = true \/ (e <=? 0) = true \/
  (b <=? 0) = true \/ (r <=? 0) = true ->
  exists message,
    constructor (Some d) (Some f) (Some e) (Some b) (Some r) = Throw (RangeError message).
Proof.
  intros Hany. unfold constructor. binary64_ops. cbn [default].
  destruct (d <=? 0) eqn:Hd; [ eexists; reflexivity | ].
  destruct (f <=? 0) eqn:Hf; [ eexists; reflexivity | ].
  destruct (e <=? 0) eqn:He; [ eexists; reflexivity | ].
  destruct (b <=? 0) eqn:Hb; [ eexists; reflexivity | ].
  destruct (r <=? 0) eqn:Hr; [ eexists; reflexivity | ].
  destruct Hany as [Hx | [Hx | [Hx | [Hx | Hx]]]]; discriminate Hx.
Qed.

(** X6.  If the text of any box in use (the three required boxes, and each
    optional box that is not hidden) converts to NaN, the run writes the
    incorrect-input message, in the language of the page, into all five
    result containers and sets them in italic, and logs one SyntaxError
    naming a box.  This happens whatever the other boxes hold: NaN is
    reported before any value that is out of range. *)
Theorem not_a_number_is_reported_first (d : Document) (key : string) (v : float) :
  In (key, v) (inputData d) -> PrimFloat.is_nan v = true ->
  (forall id, is_container id = true ->
     textContent (elements (calcTelescopeCharacteristics d) id) =
       incorrectTypeErrorMessage (lang d) /\
     fontStyle (elements (calcTelescopeCharacteristics d) id) = "italic") /\
  (exists key',
     console (calcTelescopeCharacteristics d) =
       (console d ++
        [SyntaxError ("Textbox input for " ++ key' ++ " is not a number.")])%list).
Proof.
  intros Hin Hnan.
  destruct (check_numeric_finds_NaN _ _ _ Hin Hnan) as [key' Hcheck].
  rewrite calc_structure. unfold calculate. rewrite Hcheck.
  unfold catch_block. split.
  - intros id Hid. cbn [console_log elements].
    rewrite show_message_elements, Hid. split; reflexivity.
  - exists key'. reflexivity.
Qed.

(** X7.  If no box in use converts to NaN and the value of at least one
    is [<= 0], the run writes the out-of-range message, in the language of
    the page, into all five result containers, sets them in italic, and
    logs the RangeError of the class. *)
Theorem out_of_range_is_reported (d : Document) (key : string) (v : float) :
  (forall key' v', In (key', v') (inputData d) -> not_nan v') ->
  In (key, v) (inputData d) -> (v <=? 0) = true ->
  (forall id, is_container id = true ->
     textContent (elements (calcTelescopeCharacteristics d) id) =
       rangeErrorMessage (lang d) /\
     fontStyle (elements (calcTelescopeCharacteristics d) id) = "italic") /\
  (exists message,
     console (calcTelescopeCharacteristics d) =
       (console d ++ [ClassError (RangeError message)])%list).
Proof.
  intros Hnumeric Hin Hle.
  rewrite calc_structure. unfold calculate.
  rewrite (check_numeric_passes _ Hnumeric).
  rewrite inputData_entries in Hin |- *.
  cbn [lookup String.eqb Ascii.eqb Bool.eqb].
  destruct (@constructor_rejects
              (number_in d "telDiameter") (number_in d "telFocalLength")
              (number_in d "epFocalLength")
              (if hidden (getElementById d "barlowPower") then 1
               else number_in d "barlowPower")
              (if hidden (getElementById d "fReducerFactor") then 1
               else number_in d "fReducerFactor")) as [message Hthrow].
  { destruct Hin as [[= _ <-] | [[= _ <-] | [[= _ <-] | [[= _ <-] | [[= _ <-] | []]]]]];
      auto 6. }
  rewrite Hthrow. unfold catch_block. split.
  - intros id Hid. cbn [console_log elements].
    rewrite show_message_elements, Hid. split; reflexivity.
  - exists message. reflexivity.
Qed.

Lemma SFcompare_self (x : spec_float) :
  x <> S754_nan -> SFcompare x x = Some Eq.
Proof.
  destruct x as [s | s | | s m e]; simpl; intros Hx; try congruence.
  - destruct s; reflexivity.
  - rewrite Z.compare_refl.
    change (Pos.compare_cont Eq m m) with (Pos.compare m m).
    rewrite Pos.compare_refl. destruct s; reflexivity.
Qed.

Lemma positive_not_nan (x : float) : positive_number x -> not_nan x.
Proof.
  unfold positive_number, not_nan, PrimFloat.is_nan.
  rewrite FloatAxioms.ltb_spec, FloatAxioms.eqb_spec, Prim2SF_0.
  intros Hpos. unfold SFeqb. rewrite SFcompare_self; [ reflexivity | ].
  intros Hnan. rewrite Hnan in Hpos. discriminate Hpos.
Qed.

Lemma result_text_outside (r : float * float * float * float * float) (id : string) :
  is_container id = false -> result_text r id = None.
Proof.
  rewrite is_container_cases. destruct r as [[[[m lo] up] fn] dl].
  unfold result_text.
  destruct (String.eqb id "magResult"); [ discriminate | ].
  destruct (String.eqb id "lowerMagLimit"); [ discriminate | ].
  destruct (String.eqb id "upperMagLimit"); [ discriminate | ].
  destruct (String.eqb id "fRatioResult"); [ discriminate | ].
  destruct (String.eqb id "dawesLimitRes"); [ discriminate | reflexivity ].
Qed.

(** What a run computes from five values that are all [> 0]. *)
Lemma calculate_positive (entries : dictionary float) (a f e b r : float) :
  entries = [("telDiameter", a); ("telFocalLength", f); ("epFocalLength", e);
             ("barlowFactor", b); ("focalReducerFactor", r)] ->
  (forall key v, In (key, v) entries -> positive_number v) ->
  calculate entries = inr (b * f * r / e, a / 6, 2 * a, b * f / a * r, 116 / a).
Proof.
  intros -> Hpos. unfold calculate.
  rewrite check_numeric_passes
    by (intros key v Hin; apply positive_not_nan, (Hpos key v Hin)).
  cbn [lookup String.eqb Ascii.eqb Bool.eqb].
  rewrite constructor_accepts; cbn [default]; try (eapply Hpos; simpl; eauto 6; fail).
  reflexivity.
Qed.

(** X8.  If the values of all boxes in use are [> 0], the run writes into
    the five result containers the magnification, the two magnification
    limits, the focal ratio and the Dawes limit of the class for these
    values, each through [toFixed(2)] with its unit, a hidden optional box
    counting as factor [1].  No other element's text changes, nothing is
    logged, and the font style of every element of class [resultDisplay]
    is cleared, so the italic of an earlier error message goes away. *)
Theorem results_are_displayed (d : Document) :
  (forall key v, In (key, v) (inputData d) -> positive_number v) ->
  let a := number_in d "telDiameter" in
  let f := number_in d "telFocalLength" in
  let e := number_in d "epFocalLength" in
  let b := if hidden (getElementById d "barlowPower") then 1
           else number_in d "barlowPower" in
  let r := if hidden (getElementById d "fReducerFactor") then 1
           else number_in d "fReducerFactor" in
  let shown := result_text (b * f * r / e, a / 6, 2 * a, b * f / a * r, 116 / a) in
  (forall id,
     textContent (elements (calcTelescopeCharacteristics d) id) =
       match shown id with
       | Some text => text
       | None => textContent (elements d id)
       end) /\
  (forall id,
     fontStyle (elements (calcTelescopeCharacteristics d) id) =
       if is_resultDisplay (elements d id) then "" else fontStyle (elements d id)) /\
  console (calcTelescopeCharacteristics d) = console d.
Proof.
  intros Hpos a f e b r shown.
  rewrite calc_structure.
  rewrite (calculate_positive (inputData_entries d) Hpos).
  fold a f e b r.
  repeat split.
  - intros id. rewrite display_elements. fold shown.
    destruct (shown id); simpl;
      destruct (is_resultDisplay (elements d id)); reflexivity.
  - intros id. rewrite display_elements. fold shown.
    destruct (shown id); simpl;
      destruct (is_resultDisplay (elements d id)); reflexivity.
Qed.

(** The NaN check, the construction and the five calls on five values
    end with the results, with a SyntaxError or with a RangeError. *)
Lemma calculate_outcomes (a f e b r : float) :
  let entries := [("telDiameter", a); ("telFocalLength", f); ("epFocalLength", e);
                  ("barlowFactor", b); ("focalReducerFactor", r)] in
  (exists results, calculate entries = inr results) \/
  (exists message, calculate entries = inl (SyntaxError message)) \/
  (exists message, calculate entries = inl (ClassError (RangeError message))).
Proof.
  intros entries. unfold calculate, entries.
  destruct (check_numeric _) as [exception | ] eqn:Hcheck.
  - right. left. revert Hcheck. simpl.
    repeat match goal with
           | |- context [PrimFloat.is_nan ?x] => destruct (PrimFloat.is_nan x)
           end; intros [= <-]; eexists; reflexivity.
  - cbn [lookup String.eqb Ascii.eqb Bool.eqb].
    unfold constructor. binary64_ops. cbn [default].
    repeat match goal with
           | |- context [PrimFloat.leb ?x 0] => destruct (PrimFloat.leb x 0)
           end;
      first [ left; eexists; reflexivity | right; right; eexists; reflexivity ].
Qed.

(** X9.  The run never hands the class a missing argument: whatever the
    page holds, the [try] block ends in one of three ways, with the results
    written, with the SyntaxError of the NaN check, or with a RangeError of
    the class.  It never ends with a TypeError, for which [catch] has no
    branch and would show nothing. *)
Theorem run_ends_in_one_of_three_ways (d : Document) :
  (exists d', try_block d = inr d') \/
  (exists message, try_block d = inl (SyntaxError message)) \/
  (exists message, try_block d = inl (ClassError (RangeError message))).
Proof.
  unfold try_block. rewrite inputData_entries.
  destruct (calculate_outcomes
              (number_in d "telDiameter") (number_in d "telFocalLength")
              (number_in d "epFocalLength")
              (if hidden (getElementById d "barlowPower") then 1
               else number_in d "barlowPower")
              (if hidden (getElementById d "fReducerFactor") then 1
               else number_in d "fReducerFactor"))
    as [[results Hresults] | [[message Hsyntax] | [message Hrange]]].
  - left. rewrite Hresults. eexists. reflexivity.
  - right. left. rewrite Hsyntax. exists message. reflexivity.
  - right. right. rewrite Hrange. exists message. reflexivity.
Qed.

(** After a run every element is the element of before, with at most its
    text and its font style replaced. *)
Lemma run_element (d : Document) (id : string) :
  exists text style,
    elements (calcTelescopeCharacteristics d) id =
      set_fontStyle style (set_textContent text (elements d id)).
Proof.
  rewrite calc_structure.
  destruct (calculate (inputData d)) as [[[msg | msg] | msg] | r];
    unfold catch_block; cbn [console_log elements];
    rewrite ?show_message_elements, ?display_elements;
    cbn [update_all elements];
    try destruct (is_container id); try destruct (result_text r id);
    destruct (is_resultDisplay (elements d id));
    destruct (elements d id); do 2 eexists;
    unfold set_fontStyle, set_textContent; cbn; reflexivity.
Qed.

Lemma run_same_control (d : Document) (id : string) :
  same_control (elements (calcTelescopeCharacteristics d) id) (elements d id).
Proof.
  destruct (run_element d id) as (text & style & ->).
  repeat split.
Qed.

Lemma run_lang (d : Document) : lang (calcTelescopeCharacteristics d) = lang d.
Proof.
  rewrite calc_structure.
  destruct (calculate (inputData d)) as [[[msg | msg] | msg] | r]; try reflexivity.
  destruct r as [[[[m lo] up] fn] dl]. reflexivity.
Qed.

(** X10.  A run changes nothing but texts and font styles: the value,
    checkedness, defaults, visibility, classes and form of every element
    are as before, as is the language of the page; and outside the five
    result containers no text changes either. *)
Theorem run_leaves_the_form_alone (d : Document) (id : string) :
  same_control (elements (calcTelescopeCharacteristics d) id) (elements d id) /\
  (is_container id = false ->
   textContent (elements (calcTelescopeCharacteristics d) id) =
     textContent (elements d id)) /\
  lang (calcTelescopeCharacteristics d) = lang d.
Proof.
  split; [ apply run_same_control | split; [ | apply run_lang ] ].
  intros Hid. rewrite calc_structure.
  destruct (calculate (inputData d)) as [[[msg | msg] | msg] | r];
    unfold catch_block; cbn [console_log elements];
    rewrite ?show_message_elements, ?display_elements, ?Hid,
      ?(result_text_outside r id Hid);
    cbn [update_all elements];
    destruct (is_resultDisplay (elements d id)); reflexivity.
Qed.

(** ** Hidden boxes *)

(** X11.  The text of an optional box that is hidden plays no part in a
    run: with the Barlow box (or the focal reducer box) hidden, typing
    anything into it changes neither what the run writes into any other
    element nor what it logs. *)
Theorem hidden_box_is_ignored (d : Document) (box text : string) :
  box = "barlowPower" \/ box = "fReducerFactor" ->
  hidden (getElementById d box) = true ->
  (forall id, id <> box ->
     elements (calcTelescopeCharacteristics (update box (set_value text) d)) id =
       elements (calcTelescopeCharacteristics d) id) /\
  console (calcTelescopeCharacteristics (update box (set_value text) d)) =
    console (calcTelescopeCharacteristics d).
Proof.
  intros Hbox Hhidden.
  assert (Hdata : inputData (update box (set_value text) d) = inputData d).
  { rewrite !inputData_entries. unfold number_in, getElementById in *.
    destruct Hbox as [-> | ->]; cbn [update elements String.eqb Ascii.eqb Bool.eqb];
      cbn [set_value hidden]; rewrite Hhidden; reflexivity. }
  rewrite !calc_structure, Hdata.
  split.
  - intros id Hid. apply String.eqb_neq in Hid.
    destruct (calculate (inputData d)) as [[[msg | msg] | msg] | r];
      unfold catch_block; cbn [console_log elements lang update];
      rewrite ?show_message_elements, ?display_elements;
      cbn [update_all update elements]; rewrite Hid; reflexivity.
  - destruct (calculate (inputData d)) as [[[msg | msg] | msg] | r];
      unfold catch_block; cbn [console_log console lang update];
      try reflexivity.
    destruct r as [[[[m lo] up] fn] dl]. reflexivity.
Qed.

(** ** The checkbox handlers *)

(** X12.  What the two checkbox handlers mean for the next run: after
    [showBarlowBox] the Barlow factor that a run reads is the number in
    the Barlow box if the checkbox of the event is ticked, and [1] if it
    is not, whatever the box holds; the other four values read are as
    before.  Likewise for [showFocalReducerBox] and the focal reducer
    factor. *)
Theorem ticking_decides_the_factor (event : Event) (d : Document) :
  inputData (showBarlowBox event d) =
    store "barlowFactor"
      (if checked (target event) then number_in d "barlowPower" else 1)
      (inputData d) /\
  inputData (showFocalReducerBox event d) =
    store "focalReducerFactor"
      (if checked (target event) then number_in d "fReducerFactor" else 1)
      (inputData d).
Proof.
  rewrite !inputData_entries. unfold showBarlowBox, showFocalReducerBox.
  split; destruct (checked (target event)); reflexivity.
Qed.

(** ** resetForm *)

Lemma resetForm_elements (d : Document) (id : string) :
  elements (resetForm d) id =
    let el := elements d id in
    let el := if in_magCalc el then reset_control el else el in
    let el := if is_resultDisplay el
              then set_fontStyle "" (set_textContent "" el) else el in
    if String.eqb id "barlowLabel" || String.eqb id "barlowPower" ||
       String.eqb id "fReducerLabel" || String.eqb id "fReducerFactor"
    then set_hidden true el else el.
Proof.
  unfold resetForm. rewrite !elements_update. cbn [update_all elements].
  destruct (String.eqb id "barlowLabel"), (String.eqb id "barlowPower"),
    (String.eqb id "fReducerLabel"), (String.eqb id "fReducerFactor");
    reflexivity.
Qed.

(** X13.  After [resetForm], whatever was typed, ticked or shown before:
    every control of the form [magCalc] holds its default value and
    default checkedness, every element of class [resultDisplay] is empty
    and in the normal font style, both optional boxes and their labels
    are hidden, and so the next run reads the factor [1] for the Barlow
    lens and for the focal reducer. *)
Theorem reset_restores_the_form (d : Document) :
  (forall id, in_magCalc (elements d id) = true ->
     value (elements (resetForm d) id) = defaultValue (elements d id) /\
     checked (elements (resetForm d) id) = defaultChecked (elements d id)) /\
  (forall id, is_resultDisplay (elements d id) = true ->
     textContent (elements (resetForm d) id) = "" /\
     fontStyle (elements (resetForm d) id) = "") /\
  (hidden (getElementById (resetForm d) "barlowLabel") = true /\
   hidden (getElementById (resetForm d) "barlowPower") = true /\
   hidden (getElementById (resetForm d) "fReducerLabel") = true /\
   hidden (getElementById (resetForm d) "fReducerFactor") = true) /\
  lookup "barlowFactor" (inputData (resetForm d)) = Some 1 /\
  lookup "focalReducerFactor" (inputData (resetForm d)) = Some 1.
Proof.
  split; [ | split; [ | split ] ].
  - intros id Hform. rewrite resetForm_elements. cbn zeta. rewrite Hform.
    destruct (is_resultDisplay (reset_control (elements d id)));
      destruct (_ || _); split; reflexivity.
  - intros id Hclass. rewrite resetForm_elements. cbn zeta.
    assert (Hclass' : is_resultDisplay
                        (if in_magCalc (elements d id)
                         then reset_control (elements d id) else elements d id) = true)
      by (destruct (in_magCalc (elements d id)); exact Hclass).
    rewrite Hclass'. destruct (_ || _); split; reflexivity.
  - unfold getElementById. rewrite !resetForm_elements.
    repeat split; reflexivity.
  - rewrite inputData_entries. unfold getElementById.
    rewrite !resetForm_elements. split; reflexivity.
Qed.

(** ** Sessions *)

Lemma typing_keeps_invariant (id text : string) (d : Document) :
  session_invariant d -> session_invariant (update id (set_value text) d).
Proof.
  unfold session_invariant, unticked_by_reset, boxes_follow_checkboxes,
    getElementById, in_magCalc.
  rewrite !elements_update.
  destruct (String.eqb "includeBarlow" id), (String.eqb "includeFocalReducer" id),
    (String.eqb "barlowLabel" id), (String.eqb "barlowPower" id),
    (String.eqb "fReducerLabel" id), (String.eqb "fReducerFactor" id);
    exact (fun H => H).
Qed.

Lemma run_keeps_invariant (d : Document) :
  session_invariant d -> session_invariant (calcTelescopeCharacteristics d).
Proof.
  unfold session_invariant, unticked_by_reset, boxes_follow_checkboxes,
    getElementById, in_magCalc.
  destruct (run_same_control d "includeBarlow") as (_ & _ & -> & -> & _ & _ & ->).
  destruct (run_same_control d "includeFocalReducer") as (_ & _ & -> & -> & _ & _ & ->).
  destruct (run_same_control d "barlowLabel") as (_ & _ & _ & _ & -> & _).
  destruct (run_same_control d "barlowPower") as (_ & _ & _ & _ & -> & _).
  destruct (run_same_control d "fReducerLabel") as (_ & _ & _ & _ & -> & _).
  destruct (run_same_control d "fReducerFactor") as (_ & _ & _ & _ & -> & _).
  exact (fun H => H).
Qed.

Lemma reset_keeps_invariant (d : Document) :
  session_invariant d -> session_invariant (resetForm d).
Proof.
  unfold session_invariant, unticked_by_reset, boxes_follow_checkboxes, getElementById.
  intros ((Hform1 & Hdefault1) & (Hform2 & Hdefault2) & _).
  rewrite !resetForm_elements.
  cbn [String.eqb Ascii.eqb Bool.eqb orb]. cbn zeta.
  rewrite Hform1, Hform2.
  destruct (is_resultDisplay (reset_control (elements d "includeBarlow")));
    destruct (is_resultDisplay (reset_control (elements d "includeFocalReducer")));
    cbn [in_magCalc set_fontStyle set_textContent reset_control set_hidden
           form checked defaultChecked hidden];
    rewrite ?Hdefault1, ?Hdefault2;
    repeat split; assumption || reflexivity.
Qed.

Lemma ticking_keeps_invariant (id : string) (d : Document) :
  session_invariant d -> session_invariant (handle (tick id) d).
Proof.
  unfold session_invariant, unticked_by_reset, boxes_follow_checkboxes, getElementById.
  intros ((Hform1 & Hdefault1) & (Hform2 & Hdefault2) & Hlabel1 & Hbox1 & Hlabel2 & Hbox2).
  unfold in_magCalc in *.
  cbn [handle].
  case_id id "includeBarlow"; [ | case_id id "includeFocalReducer" ].
  - cbn [String.eqb Ascii.eqb Bool.eqb]. unfold showBarlowBox, getElementById.
    cbn [target]. rewrite elements_update.
    cbn [String.eqb Ascii.eqb Bool.eqb set_checked checked].
    destruct (checked (elements d "includeBarlow")) eqn:Hticked; cbn [negb];
      rewrite !elements_update; cbn [String.eqb Ascii.eqb Bool.eqb];
      cbn [set_checked set_hidden form checked defaultChecked hidden negb];
      rewrite ?Hticked; cbn [negb];
      repeat split; assumption || reflexivity.
  - cbn [String.eqb Ascii.eqb Bool.eqb]. unfold showFocalReducerBox, getElementById.
    cbn [target]. rewrite elements_update.
    cbn [String.eqb Ascii.eqb Bool.eqb set_checked checked].
    destruct (checked (elements d "includeFocalReducer")) eqn:Hticked; cbn [negb];
      rewrite !elements_update; cbn [String.eqb Ascii.eqb Bool.eqb];
      cbn [set_checked set_hidden form checked defaultChecked hidden negb];
      rewrite ?Hticked; cbn [negb];
      repeat split; assumption || reflexivity.
  - rewrite !elements_update.
    rewrite (proj2 (String.eqb_neq "includeBarlow" id)) by congruence.
    rewrite (proj2 (String.eqb_neq "includeFocalReducer" id)) by congruence.
    destruct (String.eqb "barlowLabel" id), (String.eqb "barlowPower" id),
      (String.eqb "fReducerLabel" id), (String.eqb "fReducerFactor" id);
      cbn [set_checked set_hidden form checked defaultChecked hidden];
      repeat split; assumption.
Qed.

Lemma handle_keeps_invariant (action : UserAction) (d : Document) :
  session_invariant d -> session_invariant (handle action d).
Proof.
  destruct action as [id | id | id text].
  - apply ticking_keeps_invariant.
  - cbn [handle].
    destruct (String.eqb id "calcMag"); [ apply run_keeps_invariant | ].
    destruct (String.eqb id "resetBtn"); [ apply reset_keeps_invariant | ].
    exact (fun H => H).
  - apply typing_keeps_invariant.
Qed.

(** X14.  On a page whose two checkboxes belong to the form [magCalc] and
    are unticked by default, and on which each optional box and its label
    are shown exactly when their checkbox is ticked, this stays so through
    any sequence of ticking, typing, calculating and resetting: the
    handlers and [resetForm] keep boxes and checkboxes in step. *)
Theorem boxes_follow_checkboxes_throughout (actions : list UserAction) (d : Document) :
  unticked_by_reset (getElementById d "includeBarlow") ->
  unticked_by_reset (getElementById d "includeFocalReducer") ->
  boxes_follow_checkboxes d ->
  boxes_follow_checkboxes (session actions d).
Proof.
  intros Hbarlow Hreducer Hboxes.
  assert (Hinv : session_invariant d) by (split; [ | split ]; assumption).
  clear Hbarlow Hreducer Hboxes.
  revert d Hinv. unfold session.
  induction actions as [ | action rest IH]; intros d Hinv.
  - apply Hinv.
  - cbn [fold_left]. apply IH. apply handle_keeps_invariant. exact Hinv.
Qed.

(** X15.  What a run shows depends on the form only, not on what was shown
    before: two pages in the same language whose elements agree on value
    and visibility get the same text in each of the five result
    containers. *)
Theorem shown_text_depends_on_the_form_only (d d' : Document) (id : string) :
  lang d' = lang d ->
  (forall id', value (elements d' id') = value (elements d id')) ->
  (forall id', hidden (elements d' id') = hidden (elements d id')) ->
  is_container id = true ->
  textContent (elements (calcTelescopeCharacteristics d') id) =
    textContent (elements (calcTelescopeCharacteristics d) id).
Proof.
  intros Hlang Hvalue Hhidden Hid.
  rewrite !calc_structure, (inputData_same d d' Hvalue Hhidden).
  pose proof (calculate_outcomes
                (number_in d "telDiameter") (number_in d "telFocalLength")
                (number_in d "epFocalLength")
                (if hidden (getElementById d "barlowPower") then 1
                 else number_in d "barlowPower")
                (if hidden (getElementById d "fReducerFactor") then 1
                 else number_in d "fReducerFactor")) as Hways.
  cbv zeta in Hways. rewrite <- inputData_entries in Hways.
  destruct (calculate (inputData d)) as [[[msg | msg] | msg] | r];
    unfold catch_block; cbn [console_log elements lang update_all];
    rewrite ?show_message_elements, ?display_elements, ?Hid, ?Hlang;
    try reflexivity.
  - (* a TypeError would leave the old texts: it does not occur *)
    exfalso.
    destruct Hways as [[r Hr] | [[m Hm] | [m Hm]]]; discriminate.
  - cbn [update_all elements].
    destruct (result_text r id) as [text | ] eqn:Htext.
    + destruct (is_resultDisplay (elements d id)), (is_resultDisplay (elements d' id));
        reflexivity.
    + exfalso. revert Htext. revert Hid. rewrite is_container_cases.
      destruct r as [[[[m lo] up] fn] dl]. unfold result_text.
      destruct (String.eqb id "magResult"); [ discriminate | ].
      destruct (String.eqb id "lowerMagLimit"); [ discriminate | ].
      destruct (String.eqb id "upperMagLimit"); [ discriminate | ].
      destruct (String.eqb id "fRatioResult"); [ discriminate | ].
      destruct (String.eqb id "dawesLimitRes"); discriminate.
Qed.

End PageProperties.

(** ** Examples on a sample page *)

Lemma not_a_number_is_reported_first_witness :
  textContent
    (elements (@calcTelescopeCharacteristics example_browser
                 (example_page "200" "abc" "0")) "magResult") =
    "Error: Incorrect input type, please check that your inputs are numbers."%string /\
  fontStyle
    (elements (@calcTelescopeCharacteristics example_browser
                 (example_page "200" "abc" "0")) "magResult") = "italic"%string.
Proof.
  exact (proj1 (@not_a_number_is_reported_first example_browser
                  (example_page "200" "abc" "0") "telFocalLength" nan
                  (or_intror (or_introl eq_refl)) eq_refl)
           "magResult"%string eq_refl).
Defined.

Lemma out_of_range_is_reported_witness :
  textContent
    (elements (@calcTelescopeCharacteristics example_browser
                 (example_page "200" "1000" "0")) "dawesLimitRes") =
    "Error: Please check that the telescope and eyepiece focal lengths, Barlow lens power and/or Focal reducer factor are positive."%string /\
  fontStyle
    (elements (@calcTelescopeCharacteristics example_browser
                 (example_page "200" "1000" "0")) "dawesLimitRes") = "italic"%string.
Proof.
  assert (Hnumeric : forall key v,
             In (key, v) (@inputData example_browser (example_page "200" "1000" "0")) ->
             not_nan v).
  { intros key v Hin. vm_compute in Hin.
    destruct Hin as [[= _ <-] | [[= _ <-] | [[= _ <-] | [[= _ <-] | [[= _ <-] | []]]]]];
      reflexivity. }
  exact (proj1 (@out_of_range_is_reported example_browser
                  (example_page "200" "1000" "0") "epFocalLength" 0
                  Hnumeric (or_intror (or_intror (or_introl eq_refl))) eq_refl)
           "dawesLimitRes"%string eq_refl).
Defined.

Lemma results_are_displayed_witness :
  textContent
    (elements (@calcTelescopeCharacteristics example_browser
                 (example_page "200" "1000" "10")) "lowerMagLimit") =
    "33.33 x"%string.
Proof.
  assert (Hpositive : forall key v,
             In (key, v) (@inputData example_browser (example_page "200" "1000" "10")) ->
             positive_number v).
  { intros key v Hin. vm_compute in Hin.
    destruct Hin as [[= _ <-] | [[= _ <-] | [[= _ <-] | [[= _ <-] | [[= _ <-] | []]]]]];
      reflexivity. }
  exact (proj1 (@results_are_displayed example_browser
                  (example_page "200" "1000" "10") Hpositive)
           "lowerMagLimit"%string).
Defined.

Lemma hidden_box_is_ignored_witness :
  elements (@calcTelescopeCharacteristics example_browser
              (update "barlowPower" (set_value "abc") (example_page "200" "1000" "10")))
    "magResult" =
  elements (@calcTelescopeCharacteristics example_browser
              (example_page "200" "1000" "10")) "magResult".
Proof.
  apply (proj1 (@hidden_box_is_ignored example_browser
                  (example_page "200" "1000" "10") "barlowPower" "abc"
                  (or_introl eq_refl) eq_refl)).
  discriminate.
Defined.

Lemma boxes_follow_checkboxes_throughout_witness :
  boxes_follow_checkboxes
    (@session example_browser
       [tick "includeBarlow"; type_text "barlowPower" "2"; click "calcMag";
        click "resetBtn"; tick "includeFocalReducer"]
       (example_page "200" "1000" "10")).
Proof.
  apply (@boxes_follow_checkboxes_throughout example_browser).
  - split; reflexivity.
  - split; reflexivity.
  - repeat split; reflexivity.
Defined.

Lemma shown_text_depends_on_the_form_only_witness :
  textContent
    (elements (@calcTelescopeCharacteristics example_browser
                 (@calcTelescopeCharacteristics example_browser
                    (example_page "200" "1000" "0"))) "magResult") =
  textContent
    (elements (@calcTelescopeCharacteristics example_browser
                 (example_page "200" "1000" "0")) "magResult").
Proof.
  apply (@shown_text_depends_on_the_form_only example_browser).
  - apply run_lang.
  - intros id'.
    destruct (@run_same_control example_browser (example_page "200" "1000" "0") id')
      as (Hvalue & _).
    exact Hvalue.
  - intros id'.
    destruct (@run_same_control example_browser (example_page "200" "1000" "0") id')
      as (_ & _ & _ & _ & Hhidden & _).
    exact Hhidden.
  - reflexivity.
Defined.
